(** * Healthcare service resource: mapper and lifecycle handler

    A shallow embedding of the [azurerm_healthcare_service] resource of the
    AzureRM Terraform provider: the expand/flatten mapper functions and the
    Create/Update, Read and Delete handlers, with the properties the
    specification states about them. *)

From Stdlib Require Import ZArith.
From stdpp Require Import base option list strings gmap.

Local Open Scope Z_scope.
Local Open Scope string_scope.
Local Open Scope list_scope.

(** ** Go data *)

(** A Go slice: the nil slice and an allocated slice (possibly of length 0)
    are different values, although both have no elements. *)
Inductive slice (A : Type) : Type :=
| NilSlice
| Slice (l : list A).
Arguments NilSlice {A}.
Arguments Slice {A} l%_list.

Definition elems {A} (s : slice A) : list A :=
  match s with NilSlice => [] | Slice l => l end.

(** [make([]T, 0)] *)
Definition make {A} : slice A := Slice [].

(** [append(s, x)]: the result is always an allocated slice. *)
Definition append {A} (s : slice A) (x : A) : slice A := Slice (elems s ++ [x]).

(** [int32(n)] for a Go [int] [n]: the low 32 bits, read as a signed number. *)
Definition int32 (n : Z) : Z := (n + 2 ^ 31) mod 2 ^ 32 - 2 ^ 31.

#[local] Set Warnings "-register-all".

(** A value held in an [interface{}]: what the configuration accessor hands
    out and takes in. Go integers of either width are carried as [VInt] (the
    conversion [int32] is applied where the code applies it), and a list is
    carried as [VList] whether its static type is [[]interface{}] or
    [[]string]. [VNil] is the nil interface. *)
Inductive value : Type :=
| VNil
| VString (s : string)
| VInt (n : Z)
| VBool (b : bool)
| VList (l : list value)
| VMap (m : gmap string value).

(** The outcome of code that can hit a failing type assertion. *)
Inductive res (A : Type) : Type :=
| Ok (a : A)
| Panic (msg : string).
Arguments Ok {A} a.
Arguments Panic {A} msg.

#[export] Instance res_ret : MRet res := @Ok.
#[export] Instance res_bind : MBind res := λ A B k r,
  match r with Ok a => k a | Panic m => Panic m end.
#[export] Instance res_fmap : FMap res := λ A B f r,
  match r with Ok a => Ok (f a) | Panic m => Panic m end.

(** [for _, x := range l { s = body(s, x) }] where the body can panic. *)
Fixpoint range {A S} (l : list A) (s : S) (body : S → A → res S) : res S :=
  match l with
  | [] => Ok s
  | x :: l' => s' ← body s x; range l' s' body
  end.

(** Type assertions [v.(string)], [v.(int)], [v.(bool)], [v.([]interface{})]
    and [v.(map[string]interface{})]. *)
Definition as_string (v : value) : res string :=
  match v with VString s => Ok s | _ => Panic "interface conversion: not a string" end.
Definition as_int (v : value) : res Z :=
  match v with VInt n => Ok n | _ => Panic "interface conversion: not an int" end.
Definition as_bool (v : value) : res bool :=
  match v with VBool b => Ok b | _ => Panic "interface conversion: not a bool" end.
Definition as_list (v : value) : res (list value) :=
  match v with VList l => Ok l | _ => Panic "interface conversion: not a []interface {}" end.
Definition as_map (v : value) : res (gmap string value) :=
  match v with VMap m => Ok m | _ => Panic "interface conversion: not a map[string]interface {}" end.

(** [m[k]] on a [map[string]interface{}]: the nil interface when [k] is
    not a key. *)
Definition index (m : gmap string value) (k : string) : value :=
  default VNil (m !! k).

(** Go's [error]. An error made by [fmt.Errorf] keeps its format string and
    arguments; errors of the transport and of the identifier parser are
    opaque. *)
Inductive error : Type :=
| RemoteError (msg : string)
| Errorf (format : string) (args : list fmtarg)
| ImportAsExists (resourceName id : string)
with fmtarg : Type :=
| ArgString (s : string)
| ArgError (e : error)
| ArgValue (v : value).

(** ** The configuration accessor ([helper/schema]) *)
Module schema.

(** [*schema.ResourceData]: the stored identifier, the configuration fields
    and whether the resource is being created. *)
Record ResourceData : Type := {
  Id : string;
  fields : gmap string value;
  IsNewResource : bool;
}.

(** [d.Get(key)]: the value the accessor holds for [key]; the nil interface
    for a key it holds nothing for. *)
Definition Get (d : ResourceData) (key : string) : value := index (fields d) key.

(** [d.SetId(v)] *)
Definition SetId (d : ResourceData) (v : string) : ResourceData :=
  {| Id := v; fields := fields d; IsNewResource := IsNewResource d |}.

(** [d.Set(key, v)]: the field writer checks the value against the schema
    ([check]); a rejected value is reported and not stored. *)
Definition Set_ (check : string → value → option error)
    (d : ResourceData) (key : string) (v : value) : ResourceData * option error :=
  match check key v with
  | Some e => (d, Some e)
  | None =>
      ({| Id := Id d; fields := <[key := v]> (fields d);
          IsNewResource := IsNewResource d |}, None)
  end.

End schema.

(** ** The request and response structs of the SDK ([healthcareapis]) *)
Module healthcareapis.

(** A nil pointer is [None]. Only the fields the resource reads or writes
    are kept. The two API versions the provider imports declare
    [ServiceAccessPolicyEntry] with the same single field. *)
Record ServiceAccessPolicyEntry : Type := {
  ObjectID : option string;
}.

Record ServiceCosmosDbConfigurationInfo : Type := {
  OfferThroughput : option Z;
}.

Record ServiceCorsConfigurationInfo : Type := {
  Origins : option (slice string);
  Headers : option (slice string);
  Methods : option (slice string);
  MaxAge : option Z;
  AllowCredentials : option bool;
}.

Record ServiceAuthenticationConfigurationInfo : Type := {
  Authority : option string;
  Audience : option string;
  SmartProxyEnabled : option bool;
}.

Record ServicesProperties : Type := {
  AccessPolicies : option (slice ServiceAccessPolicyEntry);
  CosmosDbConfiguration : option ServiceCosmosDbConfigurationInfo;
  CorsConfiguration : option ServiceCorsConfigurationInfo;
  AuthenticationConfiguration : option ServiceAuthenticationConfigurationInfo;
}.

(** [Response] is the embedded [autorest.Response]: the HTTP status code of
    the response, or [None] when there is no response at all. *)
Record ServicesDescription : Type := {
  Response : option Z;
  ID : option string;
  Location : option string;
  Tags : gmap string (option string);
  Kind : string;
  Properties : option ServicesProperties;
}.

(** The zero values [ServiceCorsConfigurationInfo{}] and
    [ServiceAuthenticationConfigurationInfo{}]. *)
Definition ServiceCorsConfigurationInfo_zero : ServiceCorsConfigurationInfo :=
  {| Origins := None; Headers := None; Methods := None; MaxAge := None;
     AllowCredentials := None |}.

Definition ServiceAuthenticationConfigurationInfo_zero
  : ServiceAuthenticationConfigurationInfo :=
  {| Authority := None; Audience := None; SmartProxyEnabled := None |}.

End healthcareapis.

(** ** Helpers of the provider ([utils], [tf], [azure]) *)
Module utils.

(** Modelled from the spec: [utils.ExpandStringSlice] is not among the
    sources at hand; it is the "expand" of a list of strings, turning the
    accessor's [[]interface{}] into a freshly allocated [[]string]. Every
    element is asserted to be a string. *)
Definition ExpandStringSlice (input : list value) : res (slice string) :=
  range input make (λ result item, s ← as_string item; mret (append result s)).

(** Modelled from the spec: [utils.ResponseWasNotFound] is not among the
    sources at hand; a response "reports not found" when there is a response
    and its HTTP status is 404. *)
Definition ResponseWasNotFound (resp : option Z) : bool :=
  match resp with Some code => bool_decide (code = 404) | None => false end.

(** [utils.String(s)]: a pointer to [s]. *)
Definition String (s : string) : option string := Some s.

End utils.

Module tf.

(** Modelled from the spec: [tf.ImportAsExistsError] is not among the sources
    at hand; it builds the "already exists" error from the resource type and
    the identifier of the resource found. *)
Definition ImportAsExistsError (resourceName id : string) : error :=
  ImportAsExists resourceName id.

End tf.

(** A [[]string] stored into an [interface{}]. [value] has one constructor
    for lists and one for integers, so it does not tell a [[]string] from a
    [[]interface{}] of strings, nor an [int32] from an [int]: such a value is
    meant to be stored and compared, not to be handed to the type assertions
    of the expand functions. *)
Definition of_strings (s : slice string) : value := VList (VString <$> elems s).

(** A [*int32] stored into an [interface{}]. *)
Definition of_int32_ptr (p : option Z) : value :=
  match p with Some n => VInt n | None => VNil end.

Module azure.
Import healthcareapis.

(** [FlattenHealthcareAccessPolicies] *)
Definition FlattenHealthcareAccessPolicies
    (policies : option (slice ServiceAccessPolicyEntry)) : slice (gmap string value) :=
  let result := make in
  match policies with
  | None => result
  | Some policies =>
      fold_left (λ result policy,
        let policyRaw : gmap string value := ∅ in
        let policyRaw :=
          match ObjectID policy with
          | Some objectId => <["object_id" := VString objectId]> policyRaw
          | None => policyRaw
          end in
        append result policyRaw) (elems policies) result
  end.

End azure.

(** ** The mapper of the healthcare service resource *)
Import healthcareapis.

(** [expandAzureRMhealthcareapisAccessPolicyEntries] *)
Definition expandAzureRMhealthcareapisAccessPolicyEntries (d : schema.ResourceData)
  : res (option (slice ServiceAccessPolicyEntry)) :=
  accessPolicyObjectIds ← as_list (schema.Get d "access_policy_object_ids");
  let svcAccessPolicyArray := make in
  svcAccessPolicyArray ←
    range accessPolicyObjectIds svcAccessPolicyArray (λ svcAccessPolicyArray objectId,
      objectIdsStr ← as_string objectId;
      let svcAccessPolicyObjectId := {| ObjectID := Some objectIdsStr |} in
      mret (append svcAccessPolicyArray svcAccessPolicyObjectId));
  mret (Some svcAccessPolicyArray).

(** The local variables of [expandAzureRMhealthcareapisCorsConfiguration]
    that its loop assigns. *)
Record corsVars : Type := {
  allowedOrigins : slice string;
  allowedHeaders : slice string;
  allowedMethods : slice string;
  maxAgeInSeconds : Z;
  allowCredentials : bool;
}.

(** One iteration of the loop of
    [expandAzureRMhealthcareapisCorsConfiguration]: every variable is
    assigned from the block [attr]. *)
Definition corsIteration (_ : corsVars) (attr : value) : res corsVars :=
  corsConfigAttr ← as_map attr;
  allowedOrigins ← as_list (index corsConfigAttr "allowed_origins")
                     ≫= utils.ExpandStringSlice;
  allowedHeaders ← as_list (index corsConfigAttr "allowed_headers")
                     ≫= utils.ExpandStringSlice;
  allowedMethods ← as_list (index corsConfigAttr "allowed_methods")
                     ≫= utils.ExpandStringSlice;
  maxAgeInSeconds ← int32 <$> as_int (index corsConfigAttr "max_age_in_seconds");
  allowCredentials ← as_bool (index corsConfigAttr "allow_credentials");
  mret {| allowedOrigins := allowedOrigins; allowedHeaders := allowedHeaders;
          allowedMethods := allowedMethods; maxAgeInSeconds := maxAgeInSeconds;
          allowCredentials := allowCredentials |}.

(** [expandAzureRMhealthcareapisCorsConfiguration] *)
Definition expandAzureRMhealthcareapisCorsConfiguration (d : schema.ResourceData)
  : res (option ServiceCorsConfigurationInfo) :=
  corsConfigRaw ← as_list (schema.Get d "cors_configuration");
  if bool_decide (length corsConfigRaw = 0%nat) then
    mret (Some ServiceCorsConfigurationInfo_zero)
  else
    let vars := {| allowedOrigins := make; allowedHeaders := make;
                   allowedMethods := make; maxAgeInSeconds := int32 0;
                   allowCredentials := true |} in
    vars ← range corsConfigRaw vars corsIteration;
    let cors := {| Origins := Some (allowedOrigins vars);
                   Headers := Some (allowedHeaders vars);
                   Methods := Some (allowedMethods vars);
                   MaxAge := Some (maxAgeInSeconds vars);
                   AllowCredentials := Some (allowCredentials vars) |} in
    mret (Some cors).

(** The local variables of [expandAzureRMhealthcareapisAuthentication] that
    its loop assigns. *)
Record authVars : Type := {
  authority : string;
  audience : string;
  smart_proxy_enabled : bool;
}.

(** One iteration of the loop of
    [expandAzureRMhealthcareapisAuthentication]: every variable is assigned
    from the block [attr]. *)
Definition authIteration (_ : authVars) (attr : value) : res authVars :=
  authConfigAttr ← as_map attr;
  authority ← as_string (index authConfigAttr "authority");
  audience ← as_string (index authConfigAttr "audience");
  smart_proxy_enabled ← as_bool (index authConfigAttr "smart_proxy_enabled");
  mret {| authority := authority; audience := audience;
          smart_proxy_enabled := smart_proxy_enabled |}.

(** [expandAzureRMhealthcareapisAuthentication] *)
Definition expandAzureRMhealthcareapisAuthentication (d : schema.ResourceData)
  : res (option ServiceAuthenticationConfigurationInfo) :=
  authConfigRaw ← as_list (schema.Get d "authentication_configuration");
  if bool_decide (length authConfigRaw = 0%nat) then
    mret (Some ServiceAuthenticationConfigurationInfo_zero)
  else
    let vars := {| authority := ""; audience := ""; smart_proxy_enabled := true |} in
    vars ← range authConfigRaw vars authIteration;
    let auth := {| Authority := Some (authority vars);
                   Audience := Some (audience vars);
                   SmartProxyEnabled := Some (smart_proxy_enabled vars) |} in
    mret (Some auth).

(** The value [authOutput] that [resourceArmHealthcareServiceRead] builds
    from the pointer [properties.AuthenticationConfiguration] and stores
    under [authentication_configuration]. *)
Definition authOutput (authConfig : option ServiceAuthenticationConfigurationInfo)
  : list value :=
  let authOutput := [] in
  match authConfig with
  | Some authConfig =>
      let output : gmap string value := ∅ in
      let output := match Authority authConfig with
                    | Some a => <["authority" := VString a]> output
                    | None => output end in
      let output := match Audience authConfig with
                    | Some a => <["audience" := VString a]> output
                    | None => output end in
      let output := match SmartProxyEnabled authConfig with
                    | Some b => <["smart_proxy_enabled" := VBool b]> output
                    | None => output end in
      authOutput ++ [VMap output]
  | None => authOutput
  end.

(** The value [corsOutput] that [resourceArmHealthcareServiceRead] builds
    from the pointer [properties.CorsConfiguration] and stores under
    [cors_configuration]. *)
Definition corsOutput (corsConfig : option ServiceCorsConfigurationInfo)
  : list value :=
  let corsOutput := [] in
  match corsConfig with
  | Some corsConfig =>
      let output : gmap string value := ∅ in
      let output := match Origins corsConfig with
                    | Some l => <["allowed_origins" := of_strings l]> output
                    | None => output end in
      let output := match Headers corsConfig with
                    | Some l => <["allowed_headers" := of_strings l]> output
                    | None => output end in
      let output := match Methods corsConfig with
                    | Some l => <["allowed_methods" := of_strings l]> output
                    | None => output end in
      let output := match MaxAge corsConfig with
                    | Some n => <["max_age_in_seconds" := VInt n]> output
                    | None => output end in
      let output := match AllowCredentials corsConfig with
                    | Some b => <["allow_credentials" := VBool b]> output
                    | None => output end in
      corsOutput ++ [VMap output]
  | None => corsOutput
  end.

(** ** The request transport *)

(** [parseAzureResourceID]'s result: the resource group and the remaining
    path segments, keyed by resource type. *)
Record ResourceID : Type := {
  ResourceGroup : string;
  Path : gmap string string;
}.

(** The healthcare service client over a remote side of state [R]. Each
    call may change the remote side. [Future] is the handle of a long-running
    operation; [WaitForCompletionRef] blocks until the operation is terminal
    and reports its failure, if any. *)
Record HealthcareServiceClient (R Future : Type) : Type := {
  Get : string → string → R → R * (ServicesDescription * option error);
  CreateOrUpdate :
    string → string → ServicesDescription → R → R * (Future * option error);
  Delete : string → string → R → R * (Future * option error);
  WaitForCompletionRef : Future → R → R * option error;
}.
Arguments Get {R Future}.
Arguments CreateOrUpdate {R Future}.
Arguments Delete {R Future}.
Arguments WaitForCompletionRef {R Future}.

(** What a handler does that is visible outside it, in the order it does
    it: calls of the transport with their results, and writes of the stored
    identifier. *)
Inductive event (Future : Type) : Type :=
| EvGet (resourceGroup name : string) (result : ServicesDescription) (err : option error)
| EvCreateOrUpdate (resourceGroup name : string) (body : ServicesDescription)
    (future : Future) (err : option error)
| EvDelete (resourceGroup name : string) (future : Future) (err : option error)
| EvWait (future : Future) (err : option error)
| EvSetId (id : string).
Arguments EvGet {Future}.
Arguments EvCreateOrUpdate {Future}.
Arguments EvDelete {Future}.
Arguments EvWait {Future}.
Arguments EvSetId {Future}.

(** Whether an event is a call of the transport. *)
Definition is_call {Future} (e : event Future) : bool :=
  match e with EvSetId _ => false | _ => true end.

(** What a handler runs on: the resource data [d] it is handed, the remote
    side and the events so far. *)
Record world (R Future : Type) : Type := {
  data : schema.ResourceData;
  remote : R;
  trace : list (event Future);
}.
Arguments data {R Future}.
Arguments remote {R Future}.
Arguments trace {R Future}.

(** How a statement ends: it falls through with a value, the function
    returns an [error] (nil is [None]), or it panics. *)
Inductive step (A : Type) : Type :=
| Next (a : A)
| Return (err : option error)
| Panicked (msg : string).
Arguments Next {A} a.
Arguments Return {A} err.
Arguments Panicked {A} msg.

(** ** The lifecycle handler *)
Section handlers.

Context {R Future : Type}.

(** The [healthcare.HealthcareServiceClient] of the provider ([meta]). *)
Variable client : HealthcareServiceClient R Future.
(** The provider's identifier parser, [parseAzureResourceID]. *)
Variable parseAzureResourceID : string → ResourceID + error.
(** The provider-wide import protection switch. *)
Variable requireResourcesToBeImported : bool.
(** [azure.NormalizeLocation] *)
Variable NormalizeLocation : string → string.
(** [expandTags], and the value [flattenAndSetTags] computes from the tags. *)
Variable expandTags : gmap string value → gmap string (option string).
Variable flattenTags : gmap string (option string) → value.
(** The unexported [flattenHealthcareAccessPolicies] that Read calls. *)
Variable flattenHealthcareAccessPolicies :
  option (slice ServiceAccessPolicyEntry) → value.
(** The schema check of the accessor's field writer. *)
Variable schemaCheck : string → value → option error.

Definition handler (A : Type) : Type := world R Future → step A * world R Future.

#[export] Instance handler_ret : MRet handler := λ A a w, (Next a, w).
#[export] Instance handler_bind : MBind handler := λ A B k m w,
  match m w with
  | (Next a, w') => k a w'
  | (Return e, w') => (Return e, w')
  | (Panicked msg, w') => (Panicked msg, w')
  end.

(** [return err] *)
Definition return_ {A} (err : option error) : handler A := λ w, (Return err, w).

(** Running code that can panic. *)
Definition lift {A} (r : res A) : handler A := λ w,
  match r with Ok a => (Next a, w) | Panic msg => (Panicked msg, w) end.

Definition record (e : event Future) (w : world R Future) : world R Future :=
  {| data := data w; remote := remote w; trace := trace w ++ [e] |}.

(** [d], as it is now. *)
Definition d_ : handler schema.ResourceData := λ w, (Next (data w), w).

(** [d.SetId(v)] *)
Definition d_SetId (v : string) : handler unit := λ w,
  (Next tt, record (EvSetId v)
     {| data := schema.SetId (data w) v; remote := remote w; trace := trace w |}).

(** [d.Set(key, v)] *)
Definition d_Set (key : string) (v : value) : handler (option error) := λ w,
  let '(d', err) := schema.Set_ schemaCheck (data w) key v in
  (Next err, {| data := d'; remote := remote w; trace := trace w |}).

(** [client.Get(ctx, resourceGroup, name)] *)
Definition client_Get (resourceGroup name : string)
  : handler (ServicesDescription * option error) := λ w,
  let '(r', (result, err)) := Get client resourceGroup name (remote w) in
  (Next (result, err), record (EvGet resourceGroup name result err)
     {| data := data w; remote := r'; trace := trace w |}).

(** [client.CreateOrUpdate(ctx, resourceGroup, name, body)] *)
Definition client_CreateOrUpdate (resourceGroup name : string)
    (body : ServicesDescription) : handler (Future * option error) := λ w,
  let '(r', (future, err)) := CreateOrUpdate client resourceGroup name body (remote w) in
  (Next (future, err), record (EvCreateOrUpdate resourceGroup name body future err)
     {| data := data w; remote := r'; trace := trace w |}).

(** [client.Delete(ctx, resourceGroup, name)] *)
Definition client_Delete (resourceGroup name : string)
  : handler (Future * option error) := λ w,
  let '(r', (future, err)) := Delete client resourceGroup name (remote w) in
  (Next (future, err), record (EvDelete resourceGroup name future err)
     {| data := data w; remote := r'; trace := trace w |}).

(** [future.WaitForCompletionRef(ctx, client.Client)] *)
Definition future_WaitForCompletionRef (future : Future) : handler (option error) := λ w,
  let '(r', err) := WaitForCompletionRef client future (remote w) in
  (Next err, record (EvWait future err)
     {| data := data w; remote := r'; trace := trace w |}).

(** Modelled from the spec: [flattenAndSetTags] is not among the sources at
    hand; the tagging helper writes the flattened tags to the [tags] field
    through the accessor and drops the accessor's error. *)
Definition flattenAndSetTags (tagMap : gmap string (option string)) : handler unit :=
  _ ← d_Set "tags" (flattenTags tagMap); mret tt.

(** [resourceArmHealthcareServiceRead] *)
Definition resourceArmHealthcareServiceRead : handler Empty_set :=
  d ← d_;
  match parseAzureResourceID (schema.Id d) with
  | inr err => return_ (Some err)
  | inl id =>
    let resourceGroup := ResourceGroup id in
    let name := default "" (Path id !! "services") in
    '(resp, err) ← client_Get resourceGroup name;
    match err with
    | Some err =>
        if utils.ResponseWasNotFound (Response resp) then
          d_SetId "";; return_ None
        else
          return_ (Some (Errorf
            "Error making Read request on Azure Healthcare Service %q (Resource Group %q): %+v"
            [ArgString name; ArgString resourceGroup; ArgError err]))
    | None => mret tt
    end;;
    d_Set "name" (VString name);;
    d_Set "resource_group_name" (VString resourceGroup);;
    match Location resp with
    | Some location => d_Set "location" (VString (NormalizeLocation location));; mret tt
    | None => mret tt
    end;;
    (let kind := Kind resp in
     if bool_decide (kind ≠ "") then d_Set "kind" (VString kind);; mret tt
     else mret tt);;
    match Properties resp with
    | Some properties =>
        match AccessPolicies properties with
        | Some config =>
            d_Set "access_policy_object_ids"
              (flattenHealthcareAccessPolicies (Some config));; mret tt
        | None => mret tt
        end;;
        match CosmosDbConfiguration properties with
        | Some config =>
            d_Set "cosmosdb_throughput" (of_int32_ptr (OfferThroughput config));; mret tt
        | None => mret tt
        end;;
        (let authOutput := authOutput (AuthenticationConfiguration properties) in
         err ← d_Set "authentication_configuration" (VList authOutput);
         match err with
         | Some _ =>
             return_ (Some (Errorf "Error setting `authentication_configuration`: %+v"
                              [ArgValue (VList authOutput)]))
         | None => mret tt
         end);;
        (let corsOutput := corsOutput (CorsConfiguration properties) in
         err ← d_Set "cors_configuration" (VList corsOutput);
         match err with
         | Some _ =>
             return_ (Some (Errorf "Error setting `cors_configuration`: %+v"
                              [ArgValue (VList corsOutput)]))
         | None => mret tt
         end)
    | None => mret tt
    end;;
    flattenAndSetTags (Tags resp);;
    return_ None
  end.

(** [resourceArmHealthcareServiceCreateUpdate] *)
Definition resourceArmHealthcareServiceCreateUpdate : handler Empty_set :=
  d ← d_;
  name ← lift (as_string (schema.Get d "name"));
  resGroup ← lift (as_string (schema.Get d "resource_group_name"));
  location ← lift (NormalizeLocation <$> as_string (schema.Get d "location"));
  tags ← lift (as_map (schema.Get d "tags"));
  let expandedTags := expandTags tags in
  kind ← lift (as_string (schema.Get d "kind"));
  cdba ← lift (int32 <$> as_int (schema.Get d "cosmosdb_throughput"));
  (if requireResourcesToBeImported && schema.IsNewResource d then
     '(existing, err) ← client_Get resGroup name;
     match err with
     | Some err =>
         if negb (utils.ResponseWasNotFound (Response existing)) then
           return_ (Some (Errorf
             "Error checking for presence of existing Healthcare Service %q (Resource Group %q): %s"
             [ArgString name; ArgString resGroup; ArgError err]))
         else mret tt
     | None => mret tt
     end;;
     match ID existing with
     | Some existingID =>
         if bool_decide (existingID ≠ "") then
           return_ (Some (tf.ImportAsExistsError "azurerm_healthcare_service" existingID))
         else mret tt
     | None => mret tt
     end
   else mret tt);;
  accessPolicies ← lift (expandAzureRMhealthcareapisAccessPolicyEntries d);
  corsConfiguration ← lift (expandAzureRMhealthcareapisCorsConfiguration d);
  authenticationConfiguration ← lift (expandAzureRMhealthcareapisAuthentication d);
  let healthcareServiceDescription :=
    {| Response := None;
       ID := None;
       Location := utils.String location;
       Tags := expandedTags;
       Kind := kind;
       Properties := Some
         {| AccessPolicies := accessPolicies;
            CosmosDbConfiguration := Some {| OfferThroughput := Some cdba |};
            CorsConfiguration := corsConfiguration;
            AuthenticationConfiguration := authenticationConfiguration |} |} in
  '(future, err) ← client_CreateOrUpdate resGroup name healthcareServiceDescription;
  match err with
  | Some err =>
      return_ (Some (Errorf
        "Error Creating/Updating Healthcare Service %q (Resource Group %q): %+v"
        [ArgString name; ArgString resGroup; ArgError err]))
  | None => mret tt
  end;;
  err ← future_WaitForCompletionRef future;
  match err with
  | Some err =>
      return_ (Some (Errorf
        "Error Creating/Updating Healthcare Service %q (Resource Group %q): %+v"
        [ArgString name; ArgString resGroup; ArgError err]))
  | None => mret tt
  end;;
  '(read, err) ← client_Get resGroup name;
  match err with
  | Some err =>
      return_ (Some (Errorf
        "Error Retrieving Healthcare Service %q (Resource Group %q): %+v"
        [ArgString name; ArgString resGroup; ArgError err]))
  | None => mret tt
  end;;
  match ID read with
  | None =>
      return_ (Some (Errorf
        "Cannot read Healthcare Service %q (resource group %q) ID"
        [ArgString name; ArgString resGroup]))
  | Some readID =>
      d_SetId readID;;
      resourceArmHealthcareServiceRead
  end.

(** [resourceArmHealthcareServiceDelete] *)
Definition resourceArmHealthcareServiceDelete : handler Empty_set :=
  d ← d_;
  match parseAzureResourceID (schema.Id d) with
  | inr err =>
      return_ (Some (Errorf "Error Parsing Azure Resource ID: %+v" [ArgError err]))
  | inl id =>
    let resGroup := ResourceGroup id in
    let name := default "" (Path id !! "services") in
    '(future, err) ← client_Delete resGroup name;
    match err with
    | Some err =>
        return_ (Some (Errorf
          "Error deleting Healthcare Service %q (Resource Group %q): %+v"
          [ArgString name; ArgString resGroup; ArgError err]))
    | None => mret tt
    end;;
    err ← future_WaitForCompletionRef future;
    match err with
    | Some err =>
        return_ (Some (Errorf
          "Error waiting for the deleting Healthcare Service %q (Resource Group %q): %+v"
          [ArgString name; ArgString resGroup; ArgError err]))
    | None => mret tt
    end;;
    return_ None
  end.

End handlers.

(** ** Schema-shaped configuration values *)

(** The strings of a list all of whose elements are strings. *)
Fixpoint strings_of (l : list value) : option (list string) :=
  match l with
  | [] => Some []
  | VString s :: l' => cons s <$> strings_of l'
  | _ => None
  end.

(** The content of a [cors_configuration] block whose five fields are
    present with the types the schema declares. *)
Definition cors_block (v : value) : option corsVars :=
  match v with
  | VMap m =>
      match m !! "allowed_origins", m !! "allowed_headers", m !! "allowed_methods",
            m !! "max_age_in_seconds", m !! "allow_credentials" with
      | Some (VList o), Some (VList h), Some (VList me), Some (VInt n), Some (VBool c) =>
          o ← strings_of o; h ← strings_of h; me ← strings_of me;
          Some {| allowedOrigins := Slice o; allowedHeaders := Slice h;
                  allowedMethods := Slice me; maxAgeInSeconds := n;
                  allowCredentials := c |}
      | _, _, _, _, _ => None
      end
  | _ => None
  end.

(** The content of an [authentication_configuration] block whose three
    fields are present with the types the schema declares. *)
Definition auth_block (v : value) : option authVars :=
  match v with
  | VMap m =>
      match m !! "authority", m !! "audience", m !! "smart_proxy_enabled" with
      | Some (VString a), Some (VString u), Some (VBool p) =>
          Some {| authority := a; audience := u; smart_proxy_enabled := p |}
      | _, _, _ => None
      end
  | _ => None
  end.

(** Whether a value is such a block. *)
Definition is_cors_block (v : value) : bool :=
  match cors_block v with Some _ => true | None => false end.

Definition is_auth_block (v : value) : bool :=
  match auth_block v with Some _ => true | None => false end.

(** The field names of the two kinds of block. *)
Definition cors_keys : list string :=
  ["allowed_origins"; "allowed_headers"; "allowed_methods"; "max_age_in_seconds";
   "allow_credentials"].

Definition auth_keys : list string :=
  ["authority"; "audience"; "smart_proxy_enabled"].

(** Expand followed by flatten, per field. *)
Definition flatten_expand_access_policies (d : schema.ResourceData)
  : res (slice (gmap string value)) :=
  azure.FlattenHealthcareAccessPolicies <$> expandAzureRMhealthcareapisAccessPolicyEntries d.

Definition flatten_expand_cors (d : schema.ResourceData) : res (list value) :=
  corsOutput <$> expandAzureRMhealthcareapisCorsConfiguration d.

Definition flatten_expand_authentication (d : schema.ResourceData) : res (list value) :=
  authOutput <$> expandAzureRMhealthcareapisAuthentication d.

(** The name and resource group that
    [resourceArmHealthcareServiceCreateUpdate] reads from [d], when the six
    scalar fields it reads first hold values of the types the schema
    declares. *)
Definition prepared_arguments (d : schema.ResourceData) : option (string * string) :=
  match schema.Get d "name", schema.Get d "resource_group_name",
        schema.Get d "location", schema.Get d "tags", schema.Get d "kind",
        schema.Get d "cosmosdb_throughput" with
  | VString name, VString resGroup, VString _, VMap _, VString _, VInt _ =>
      Some (name, resGroup)
  | _, _, _, _, _, _ => None
  end.

(** The stored identifier is written with a non-empty value only right
    after a submit that succeeded, a wait that succeeded and a fetch that
    succeeded and returned that identifier. *)
Definition id_set_after_confirmation {Future} (evs : list (event Future)) : Prop :=
  ∀ pre id post,
    evs = pre ++ EvSetId id :: post →
    id ≠ "" →
    ∃ pre0 resGroup name body future read,
      pre = pre0 ++ [EvCreateOrUpdate resGroup name body future None;
                     EvWait future None;
                     EvGet resGroup name read None] ∧
      ID read = Some id.

(** Classes of events. *)
Definition is_get {Future} (e : event Future) : bool :=
  match e with EvGet _ _ _ _ => true | _ => false end.

Definition is_wait {Future} (e : event Future) : bool :=
  match e with EvWait _ _ => true | _ => false end.

Definition sets_id {Future} (e : event Future) : bool :=
  match e with EvSetId _ => true | _ => false end.

Definition sets_nonempty_id {Future} (e : event Future) : bool :=
  match e with EvSetId id => bool_decide (id ≠ "") | _ => false end.

Definition is_failed_submit {Future} (e : event Future) : bool :=
  match e with EvCreateOrUpdate _ _ _ _ (Some _) => true | _ => false end.

Definition is_failed_wait {Future} (e : event Future) : bool :=
  match e with EvWait _ (Some _) => true | _ => false end.

(** The events Read can add: a Get, and clearing the stored identifier. *)
Definition is_read_event {Future} (e : event Future) : bool :=
  match e with
  | EvGet _ _ _ _ => true
  | EvSetId id => bool_decide (id = "")
  | _ => false
  end.

(** A computation that adds only events of the class [P]. *)
Definition emits {R Future A} (P : event Future → bool) (m : @handler R Future A) : Prop :=
  ∀ w, ∃ evs, trace (m w).2 = trace w ++ evs ∧ forallb P evs = true.

(** The shapes of a run of Create/Update that starts with the events [t0]
    and the resource data [d0]: it stops before the submit; the submit fails;
    the wait fails; the fetch after the wait fails or brings no identifier;
    or the identifier is stored and Read runs. *)
Definition create_update_shape {R Future} (t0 : list (event Future))
    (d0 : schema.ResourceData) (out : step Empty_set) (w' : world R Future) : Prop :=
  (trace w' = t0 ∧ data w' = d0) ∨
  (∃ resGroup name body future err e,
      trace w' = t0 ++ [EvCreateOrUpdate resGroup name body future (Some err)] ∧
      data w' = d0 ∧ out = Return (Some e)) ∨
  (∃ resGroup name body future err e,
      trace w' = t0 ++ [EvCreateOrUpdate resGroup name body future None;
                        EvWait future (Some err)] ∧
      data w' = d0 ∧ out = Return (Some e)) ∨
  (∃ resGroup name body future read err e,
      trace w' = t0 ++ [EvCreateOrUpdate resGroup name body future None;
                        EvWait future None;
                        EvGet resGroup name read err] ∧
      (err ≠ None ∨ ID read = None) ∧
      data w' = d0 ∧ out = Return (Some e)) ∨
  (∃ resGroup name body future read id evs,
      trace w' = t0 ++ [EvCreateOrUpdate resGroup name body future None;
                        EvWait future None;
                        EvGet resGroup name read None;
                        EvSetId id] ++ evs ∧
      ID read = Some id ∧
      forallb is_read_event evs = true).

(** A run that ends in an error and has not written the stored identifier:
    the resource data is [d0] as before and no event writes the identifier. *)
Definition fails_without_id {R Future} (d0 : schema.ResourceData)
    (evs : list (event Future)) (out : step Empty_set) (w' : world R Future) : Prop :=
  (∃ e, out = Return (Some e)) ∧ data w' = d0 ∧ ∀ id, EvSetId id ∉ evs.

(** The stored identifier after the events [evs], when it was [id0] before
    them. *)
Definition id_after {Future} (id0 : string) (evs : list (event Future)) : string :=
  fold_left (λ id e, match e with EvSetId v => v | _ => id end) evs id0.

(** A computation whose writes of the stored identifier are all in its
    events. *)
Definition tracks_id {R Future A} (m : @handler R Future A) : Prop :=
  ∀ w, ∃ evs,
    trace (m w).2 = trace w ++ evs ∧
    schema.Id (data (m w).2) = id_after (schema.Id (data w)) evs.

(** A computation that does not write the field [key]. *)
Definition keeps_field {R Future A} (key : string) (m : @handler R Future A) : Prop :=
  ∀ w, schema.Get (data (m w).2) key = schema.Get (data w) key.

(** A computation that only writes fields: it does not panic, calls nothing
    and leaves the stored identifier alone. *)
Definition only_sets_fields {R Future A} (m : @handler R Future A) : Prop :=
  ∀ w,
    (∀ msg, (m w).1 ≠ Panicked msg) ∧
    trace (m w).2 = trace w ∧
    remote (m w).2 = remote w ∧
    schema.Id (data (m w).2) = schema.Id (data w) ∧
    schema.IsNewResource (data (m w).2) = schema.IsNewResource (data w).

(** A computation all of whose outcomes satisfy [Q]. *)
Definition results {R Future A} (Q : step A → Prop) (m : @handler R Future A) : Prop :=
  ∀ w, Q (m w).1.

(** A computation that always falls through. *)
Definition always_next {R Future A} (m : @handler R Future A) : Prop :=
  ∀ w, ∃ a, (m w).1 = Next a.

(** A request body in which no pointer the resource fills is nil. *)
Definition well_formed_body (body : ServicesDescription) : bool :=
  bool_decide (is_Some (Location body)) &&
  match Properties body with
  | Some properties =>
      bool_decide (is_Some (AccessPolicies properties)) &&
      bool_decide (is_Some (CosmosDbConfiguration properties)) &&
      bool_decide (is_Some (CorsConfiguration properties)) &&
      bool_decide (is_Some (AuthenticationConfiguration properties))
  | None => false
  end.

(** An event that is not a submit, or a submit of a well-formed body. *)
Definition submits_well_formed {Future} (e : event Future) : bool :=
  match e with
  | EvCreateOrUpdate _ _ body _ _ => well_formed_body body
  | _ => true
  end.

(** What Read returns once its Get has succeeded with [resp]: the field
    writer's verdict on the authentication and CORS lists decides. *)
Definition read_result (schemaCheck : string → value → option error)
    (resp : ServicesDescription) : option error :=
  match Properties resp with
  | None => None
  | Some properties =>
      let authOutput := authOutput (AuthenticationConfiguration properties) in
      let corsOutput := corsOutput (CorsConfiguration properties) in
      match schemaCheck "authentication_configuration" (VList authOutput) with
      | Some _ =>
          Some (Errorf "Error setting `authentication_configuration`: %+v"
                  [ArgValue (VList authOutput)])
      | None =>
          match schemaCheck "cors_configuration" (VList corsOutput) with
          | Some _ =>
              Some (Errorf "Error setting `cors_configuration`: %+v"
                      [ArgValue (VList corsOutput)])
          | None => None
          end
      end
  end.

(** ** Sample configurations and a sample remote side *)

(** A configuration with one access policy and no CORS or authentication
    block. *)
Definition config_minimal : schema.ResourceData :=
  {| schema.Id := "";
     schema.fields :=
       <["name" := VString "svc1"]>
       (<["resource_group_name" := VString "rg1"]>
       (<["location" := VString "westus2"]>
       (<["tags" := VMap ∅]>
       (<["kind" := VString "fhir"]>
       (<["cosmosdb_throughput" := VInt 1000]>
       (<["access_policy_object_ids" :=
            VList [VString "11111111-1111-1111-1111-111111111111"]]>
       (<["cors_configuration" := VList []]>
       (<["authentication_configuration" := VList []]> ∅))))))));
     schema.IsNewResource := true |}.

Definition cors_block_a : value :=
  VMap (<["allowed_origins" := VList [VString "http://a.example"]]>
       (<["allowed_headers" := VList [VString "x-a"]]>
       (<["allowed_methods" := VList [VString "GET"]]>
       (<["max_age_in_seconds" := VInt 100]>
       (<["allow_credentials" := VBool false]> ∅))))).

Definition cors_fields_b : gmap string value :=
  <["allowed_origins" := VList [VString "http://b.example"; VString "http://c.example"]]>
  (<["allowed_headers" := VList []]>
  (<["allowed_methods" := VList [VString "PUT"; VString "POST"]]>
  (<["max_age_in_seconds" := VInt 500]>
  (<["allow_credentials" := VBool true]> ∅)))).

Definition cors_block_b : value := VMap cors_fields_b.

Definition auth_block_a : value :=
  VMap (<["authority" := VString "https://login.example/a"]>
       (<["audience" := VString "https://a.example"]>
       (<["smart_proxy_enabled" := VBool false]> ∅))).

Definition auth_fields_b : gmap string value :=
  <["authority" := VString "https://login.example/b"]>
  (<["audience" := VString "https://b.example"]>
  (<["smart_proxy_enabled" := VBool true]> ∅)).

Definition auth_block_b : value := VMap auth_fields_b.

(** [d] with one more field written. *)
Definition with_field (d : schema.ResourceData) (key : string) (v : value)
  : schema.ResourceData :=
  {| schema.Id := schema.Id d; schema.fields := <[key := v]> (schema.fields d);
     schema.IsNewResource := schema.IsNewResource d |}.

(** A configuration with two CORS blocks and two authentication blocks. *)
Definition config_two_blocks : schema.ResourceData :=
  with_field
    (with_field config_minimal "cors_configuration" (VList [cors_block_a; cors_block_b]))
    "authentication_configuration" (VList [auth_block_a; auth_block_b]).

(** The identifier the sample remote side assigns. *)
Definition service_id : string :=
  "/subscriptions/0000/resourceGroups/rg1/providers/Microsoft.HealthcareApis/services/svc1".

(** A response without a body, with the given HTTP status. *)
Definition no_service (status : Z) : ServicesDescription :=
  {| Response := Some status; ID := None; Location := None; Tags := ∅; Kind := "";
     Properties := None |}.

(** The representation the remote side keeps of a submitted [body]. *)
Definition stored (body : ServicesDescription) : ServicesDescription :=
  {| Response := Some 200; ID := Some service_id; Location := Location body;
     Tags := Tags body; Kind := Kind body; Properties := Properties body |}.

(** A remote side holding at most one healthcare service. [Get] and
    [Delete] of a service that is not there fail with a 404 response;
    [CreateOrUpdate] stores the body under [service_id]. *)
Definition one_service_client : HealthcareServiceClient (option ServicesDescription) unit :=
  {| Get := λ _ _ r,
       (r, match r with
           | Some s => (s, None)
           | None => (no_service 404, Some (RemoteError "StatusCode=404"))
           end);
     CreateOrUpdate := λ _ _ body _, (Some (stored body), (tt, None));
     Delete := λ _ _ r,
       (None, (tt, match r with
                   | Some _ => None
                   | None => Some (RemoteError "StatusCode=404")
                   end));
     WaitForCompletionRef := λ _ r, (r, None) |}.

(** A transport whose [Get] hands back a half-decoded body together with a
    decoding error, on a 200 response. *)
Definition garbled_client : HealthcareServiceClient unit unit :=
  {| Get := λ _ _ r,
       (r, ({| Response := Some 200; ID := Some service_id; Location := None;
               Tags := ∅; Kind := ""; Properties := None |},
            Some (RemoteError "json: cannot unmarshal number into Go struct field")));
     CreateOrUpdate := λ _ _ _ r, (r, (tt, None));
     Delete := λ _ _ r, (r, (tt, None));
     WaitForCompletionRef := λ _ r, (r, None) |}.

(** A transport on which every call fails with a server error. *)
Definition failing_client : HealthcareServiceClient unit unit :=
  {| Get := λ _ _ r, (r, (no_service 500, Some (RemoteError "StatusCode=500")));
     CreateOrUpdate := λ _ _ _ r, (r, (tt, Some (RemoteError "StatusCode=500")));
     Delete := λ _ _ r, (r, (tt, Some (RemoteError "StatusCode=500")));
     WaitForCompletionRef := λ _ r, (r, Some (RemoteError "StatusCode=500")) |}.

(** An identifier parser that knows [service_id] only. *)
Definition parse_service_id (id : string) : ResourceID + error :=
  if bool_decide (id = service_id) then
    inl {| ResourceGroup := "rg1"; Path := {["services" := "svc1"]} |}
  else inr (RemoteError "Cannot parse Azure ID").

(** A field writer that accepts every value. *)
Definition accept_all (key : string) (v : value) : option error := None.

(** Stand-ins for the location and tag helpers. *)
Definition same_location (location : string) : string := location.
Definition expand_no_tags (tags : gmap string value) : gmap string (option string) := ∅.
Definition flatten_no_tags (tags : gmap string (option string)) : value := VMap ∅.

(** A stand-in for the unexported [flattenHealthcareAccessPolicies]: the
    object ids that are not nil, as a list. *)
Definition flatten_object_ids (policies : option (slice ServiceAccessPolicyEntry)) : value :=
  VList (omap (λ p, VString <$> ObjectID p) (elems (default NilSlice policies))).

(** The world a handler starts in: no event yet. *)
Definition start {R} (d : schema.ResourceData) (r : R) : world R unit :=
  {| data := d; remote := r; trace := [] |}.

(** [config_minimal] once it has been created under [service_id]. *)
Definition config_created : schema.ResourceData :=
  {| schema.Id := service_id; schema.fields := schema.fields config_minimal;
     schema.IsNewResource := false |}.

(** An identifier parser that finds a resource group and no other segment. *)
Definition parse_group_only (id : string) : ResourceID + error :=
  inl {| ResourceGroup := "rg1"; Path := ∅ |}.

(** An identifier that names a resource group and no service, and
    [config_minimal] stored under it. *)
Definition group_id : string := "/subscriptions/0000/resourceGroups/rg1".

Definition config_group_only : schema.ResourceData :=
  {| schema.Id := group_id; schema.fields := schema.fields config_minimal;
     schema.IsNewResource := false |}.

(** ** Properties of the mapper *)

(** A loop whose body overwrites everything it assigns ends in the state the
    last iteration leaves, provided no earlier iteration panics. *)
Lemma range_overwrite {A S} (l : list A) (x : A) (s : S) (body : S → A → res S) :
  (∀ s1 s2 y, body s1 y = body s2 y) →
  Forall (λ y, ∃ s', body s y = Ok s') l →
  range (l ++ [x]) s body = body s x.
Proof.
  intros Hind Hok. revert s Hok. induction l as [|y l IH]; intros s Hok; simpl.
  - by destruct (body s x).
  - inversion Hok as [|? ? [s' Hy] Hl]; subst. rewrite Hy. simpl.
    rewrite (Hind s s' x). apply IH.
    eapply Forall_impl; [exact Hl|]. intros z [s'' Hz].
    exists s''. by rewrite (Hind s' s z).
Qed.

Lemma flatten_policies_fold (l : list ServiceAccessPolicyEntry) (acc : list (gmap string value)) :
  fold_left (λ result policy,
      let policyRaw : gmap string value := ∅ in
      let policyRaw :=
        match ObjectID policy with
        | Some objectId => <["object_id" := VString objectId]> policyRaw
        | None => policyRaw
        end in
      append result policyRaw) l (Slice acc)
  = Slice (acc ++ ((λ policy, match ObjectID policy with
                              | Some objectId => {["object_id" := VString objectId]}
                              | None => ∅
                              end) <$> l)).
Proof.
  revert acc. induction l as [|p l IH]; intros acc; simpl.
  - by rewrite app_nil_r.
  - unfold append at 2. simpl. rewrite IH, <- app_assoc. simpl.
    by destruct (ObjectID p).
Qed.

Lemma flatten_policies_some (policies : slice ServiceAccessPolicyEntry) :
  azure.FlattenHealthcareAccessPolicies (Some policies)
  = Slice ((λ policy, match ObjectID policy with
                      | Some objectId => {["object_id" := VString objectId]}
                      | None => ∅
                      end) <$> elems policies).
Proof. unfold azure.FlattenHealthcareAccessPolicies, make. by rewrite flatten_policies_fold. Qed.

Lemma expand_policies_range (ids : list string) (acc : list ServiceAccessPolicyEntry) :
  range (VString <$> ids) (Slice acc) (λ svcAccessPolicyArray objectId,
      objectIdsStr ← as_string objectId;
      let svcAccessPolicyObjectId := {| ObjectID := Some objectIdsStr |} in
      mret (append svcAccessPolicyArray svcAccessPolicyObjectId))
  = Ok (Slice (acc ++ ((λ id, {| ObjectID := Some id |}) <$> ids))).
Proof.
  revert acc. induction ids as [|id ids IH]; intros acc; simpl.
  - by rewrite app_nil_r.
  - unfold append. simpl. by rewrite IH, <- app_assoc.
Qed.

Lemma expand_policies_strings (d : schema.ResourceData) (ids : list string) :
  schema.Get d "access_policy_object_ids" = VList (VString <$> ids) →
  expandAzureRMhealthcareapisAccessPolicyEntries d
  = Ok (Some (Slice ((λ id, {| ObjectID := Some id |}) <$> ids))).
Proof.
  intros Hget. unfold expandAzureRMhealthcareapisAccessPolicyEntries.
  rewrite Hget. simpl. unfold make. by rewrite expand_policies_range.
Qed.

(** C10. [FlattenHealthcareAccessPolicies] returns an allocated empty list
    for a nil pointer, and for a list of entries a list of the same length
    whose i-th map comes from the i-th entry;
    [expandAzureRMhealthcareapisAccessPolicyEntries] returns a non-nil
    pointer to a list with one entry per object id, in the same order. *)
Theorem access_policy_lists_keep_length_and_order :
  azure.FlattenHealthcareAccessPolicies None = Slice [] ∧
  (∀ policies : slice ServiceAccessPolicyEntry, ∃ result,
      azure.FlattenHealthcareAccessPolicies (Some policies) = Slice result ∧
      length result = length (elems policies) ∧
      ∀ (i : nat) policy, elems policies !! i = Some policy →
        result !! i = Some (match ObjectID policy with
                            | Some objectId => {["object_id" := VString objectId]}
                            | None => ∅
                            end)) ∧
  (∀ (d : schema.ResourceData) (ids : list string),
      schema.Get d "access_policy_object_ids" = VList (VString <$> ids) →
      ∃ entries,
        expandAzureRMhealthcareapisAccessPolicyEntries d = Ok (Some (Slice entries)) ∧
        length entries = length ids ∧
        ∀ (i : nat) id, ids !! i = Some id →
          entries !! i = Some {| ObjectID := Some id |}).
Proof.
  split; [done|]. split.
  - intros policies. eexists. split; [apply flatten_policies_some|].
    split; [by rewrite length_fmap|].
    intros i policy Hi. by rewrite list_lookup_fmap, Hi.
  - intros d ids Hget. eexists. split; [by apply expand_policies_strings|].
    split; [by rewrite length_fmap|].
    intros i id Hi. by rewrite list_lookup_fmap, Hi.
Qed.

(** The expansion of [config_minimal] has one entry, for its one object id. *)
Lemma access_policy_lists_keep_length_and_order_witness :
  ∃ entries,
    expandAzureRMhealthcareapisAccessPolicyEntries config_minimal
      = Ok (Some (Slice entries)) ∧
    length entries = 1%nat ∧
    ∀ (i : nat) id, ["11111111-1111-1111-1111-111111111111"] !! i = Some id →
      entries !! i = Some {| ObjectID := Some id |}.
Proof.
  apply (proj2 (proj2 access_policy_lists_keep_length_and_order) config_minimal
           ["11111111-1111-1111-1111-111111111111"]).
  vm_compute. reflexivity.
Defined.

(** C7. Flatten does not introduce a field the API response lacks: an
    access-policy entry with a nil [ObjectID] yields a map without
    [object_id]; the authentication and CORS maps lack the key of every nil
    field; and a nil sub-struct yields no block at all. *)
Theorem flatten_omits_absent_fields :
  (∀ (policies : slice ServiceAccessPolicyEntry) (i : nat) policy,
      elems policies !! i = Some policy →
      ObjectID policy = None →
      ∃ policyRaw,
        elems (azure.FlattenHealthcareAccessPolicies (Some policies)) !! i
          = Some policyRaw ∧
        policyRaw !! "object_id" = None) ∧
  (∀ authConfig : ServiceAuthenticationConfigurationInfo, ∃ output,
      authOutput (Some authConfig) = [VMap output] ∧
      (Authority authConfig = None → output !! "authority" = None) ∧
      (Audience authConfig = None → output !! "audience" = None) ∧
      (SmartProxyEnabled authConfig = None → output !! "smart_proxy_enabled" = None)) ∧
  (∀ corsConfig : ServiceCorsConfigurationInfo, ∃ output,
      corsOutput (Some corsConfig) = [VMap output] ∧
      (Origins corsConfig = None → output !! "allowed_origins" = None) ∧
      (Headers corsConfig = None → output !! "allowed_headers" = None) ∧
      (Methods corsConfig = None → output !! "allowed_methods" = None) ∧
      (MaxAge corsConfig = None → output !! "max_age_in_seconds" = None) ∧
      (AllowCredentials corsConfig = None → output !! "allow_credentials" = None)) ∧
  authOutput None = [] ∧
  corsOutput None = [].
Proof.
  repeat split.
  - intros policies i policy Hi Hnil. exists ∅.
    rewrite flatten_policies_some. simpl.
    rewrite list_lookup_fmap, Hi. simpl. by rewrite Hnil.
  - intros [a u p]. eexists. split; [reflexivity|]. simpl.
    destruct a, u, p; repeat split; intros ?; by simplify_map_eq.
  - intros [o h m n c]. eexists. split; [reflexivity|]. simpl.
    destruct o, h, m, n, c; repeat split; intros ?; by simplify_map_eq.
Qed.

(** Responses with some fields nil: the keys of those fields are missing. *)
Lemma flatten_omits_absent_fields_witness :
  (∃ policyRaw,
      elems (azure.FlattenHealthcareAccessPolicies
               (Some (Slice [ {| ObjectID := Some "a" |}; {| ObjectID := None |} ])))
        !! 1%nat = Some policyRaw ∧
      policyRaw !! "object_id" = None) ∧
  (∃ output,
      authOutput (Some {| Authority := None; Audience := Some "https://a.example";
                          SmartProxyEnabled := None |}) = [VMap output] ∧
      output !! "authority" = None ∧ output !! "smart_proxy_enabled" = None) ∧
  (∃ output,
      corsOutput (Some {| Origins := Some (Slice ["*"]); Headers := None;
                          Methods := None; MaxAge := Some 60;
                          AllowCredentials := None |}) = [VMap output] ∧
      output !! "allowed_headers" = None ∧ output !! "allowed_methods" = None ∧
      output !! "allow_credentials" = None).
Proof.
  pose proof flatten_omits_absent_fields as (Hpol & Hauth & Hcors & _).
  split; [|split].
  - apply (Hpol (Slice [ {| ObjectID := Some "a" |}; {| ObjectID := None |} ])
             1%nat {| ObjectID := None |}); reflexivity.
  - destruct (Hauth {| Authority := None; Audience := Some "https://a.example";
                       SmartProxyEnabled := None |}) as (output & Hout & Ha & _ & Hp).
    exists output. split; [exact Hout|]. split; [apply Ha|apply Hp]; reflexivity.
  - destruct (Hcors {| Origins := Some (Slice ["*"]); Headers := None;
                       Methods := None; MaxAge := Some 60;
                       AllowCredentials := None |})
      as (output & Hout & _ & Hh & Hm & _ & Hc).
    exists output. split; [exact Hout|].
    split; [apply Hh|split; [apply Hm|apply Hc]]; reflexivity.
Defined.

(** C2. For a configuration whose [access_policy_object_ids] holds the one
    string 11111111-1111-1111-1111-111111111111 and whose
    [cors_configuration] and [authentication_configuration] lists are empty,
    expand yields a non-nil access-policy list with exactly one entry, which
    carries that object id, and non-nil CORS and authentication structs with
    every field nil. *)
Theorem expand_single_policy_no_blocks (d : schema.ResourceData) :
  schema.Get d "access_policy_object_ids"
    = VList [VString "11111111-1111-1111-1111-111111111111"] →
  schema.Get d "cors_configuration" = VList [] →
  schema.Get d "authentication_configuration" = VList [] →
  expandAzureRMhealthcareapisAccessPolicyEntries d
    = Ok (Some (Slice [ {| ObjectID := Some "11111111-1111-1111-1111-111111111111" |} ])) ∧
  expandAzureRMhealthcareapisCorsConfiguration d
    = Ok (Some {| Origins := None; Headers := None; Methods := None; MaxAge := None;
                  AllowCredentials := None |}) ∧
  expandAzureRMhealthcareapisAuthentication d
    = Ok (Some {| Authority := None; Audience := None; SmartProxyEnabled := None |}).
Proof.
  intros Hpol Hcors Hauth.
  unfold expandAzureRMhealthcareapisAccessPolicyEntries,
    expandAzureRMhealthcareapisCorsConfiguration,
    expandAzureRMhealthcareapisAuthentication.
  rewrite Hpol, Hcors, Hauth. done.
Qed.

(** [config_minimal] is such a configuration. *)
Lemma expand_single_policy_no_blocks_witness :
  expandAzureRMhealthcareapisAccessPolicyEntries config_minimal
    = Ok (Some (Slice [ {| ObjectID := Some "11111111-1111-1111-1111-111111111111" |} ])) ∧
  expandAzureRMhealthcareapisCorsConfiguration config_minimal
    = Ok (Some {| Origins := None; Headers := None; Methods := None; MaxAge := None;
                  AllowCredentials := None |}) ∧
  expandAzureRMhealthcareapisAuthentication config_minimal
    = Ok (Some {| Authority := None; Audience := None; SmartProxyEnabled := None |}).
Proof.
  apply (expand_single_policy_no_blocks config_minimal); vm_compute; reflexivity.
Defined.

Lemma strings_of_fmap (l : list value) (ss : list string) :
  strings_of l = Some ss → l = VString <$> ss.
Proof.
  revert ss. induction l as [|v l IH]; intros ss H; simpl in H.
  - by simplify_eq.
  - destruct v; try done. destruct (strings_of l) as [ss'|]; simplify_eq/=.
    by rewrite <- (IH ss').
Qed.

Lemma ExpandStringSlice_range (ss : list string) (acc : list string) :
  range (VString <$> ss) (Slice acc)
    (λ result item, s ← as_string item; mret (append result s))
  = Ok (Slice (acc ++ ss)).
Proof.
  revert acc. induction ss as [|s ss IH]; intros acc; simpl.
  - by rewrite app_nil_r.
  - unfold append. simpl. by rewrite IH, <- app_assoc.
Qed.

Lemma ExpandStringSlice_strings (l : list value) (ss : list string) :
  strings_of l = Some ss → utils.ExpandStringSlice l = Ok (Slice ss).
Proof.
  intros H. rewrite (strings_of_fmap _ _ H).
  unfold utils.ExpandStringSlice, make. by rewrite ExpandStringSlice_range.
Qed.

Lemma corsIteration_block (vars : corsVars) (v : value) (b : corsVars) :
  cors_block v = Some b →
  corsIteration vars v
  = Ok {| allowedOrigins := allowedOrigins b; allowedHeaders := allowedHeaders b;
          allowedMethods := allowedMethods b;
          maxAgeInSeconds := int32 (maxAgeInSeconds b);
          allowCredentials := allowCredentials b |}.
Proof.
  intros H. unfold cors_block in H.
  repeat (case_match; try done).
  simplify_option_eq.
  unfold corsIteration, index. simpl.
  repeat match goal with
         | E : _ !! _ = Some _ |- _ => rewrite E; clear E
         end. simpl.
  repeat match goal with
         | E : strings_of _ = Some _ |- _ =>
             rewrite (ExpandStringSlice_strings _ _ E); clear E
         end.
  done.
Qed.

Lemma authIteration_block (vars : authVars) (v : value) (b : authVars) :
  auth_block v = Some b → authIteration vars v = Ok b.
Proof.
  intros H. unfold auth_block in H.
  repeat (case_match; try done).
  simplify_eq. unfold authIteration, index. simpl.
  repeat match goal with
         | E : _ !! _ = Some _ |- _ => rewrite E; clear E
         end.
  done.
Qed.

Lemma corsIteration_all_ok (vars : corsVars) (blocks : list value) :
  forallb is_cors_block blocks = true →
  Forall (λ v, ∃ vars', corsIteration vars v = Ok vars') blocks.
Proof.
  intros H. apply Forall_forall. intros v Hv.
  apply list_elem_of_In in Hv.
  pose proof (proj1 (forallb_forall _ _) H v Hv) as Hb.
  unfold is_cors_block in Hb. destruct (cors_block v) as [b|] eqn:E; [|done].
  eexists. by apply corsIteration_block.
Qed.

Lemma authIteration_all_ok (vars : authVars) (blocks : list value) :
  forallb is_auth_block blocks = true →
  Forall (λ v, ∃ vars', authIteration vars v = Ok vars') blocks.
Proof.
  intros H. apply Forall_forall. intros v Hv.
  apply list_elem_of_In in Hv.
  pose proof (proj1 (forallb_forall _ _) H v Hv) as Hb.
  unfold is_auth_block in Hb. destruct (auth_block v) as [b|] eqn:E; [|done].
  eexists. by apply authIteration_block.
Qed.

Lemma expand_cors_last (d : schema.ResourceData) (blocks : list value) (last : value)
    (b : corsVars) :
  schema.Get d "cors_configuration" = VList (blocks ++ [last]) →
  forallb is_cors_block blocks = true →
  cors_block last = Some b →
  expandAzureRMhealthcareapisCorsConfiguration d
  = Ok (Some {| Origins := Some (allowedOrigins b);
                Headers := Some (allowedHeaders b);
                Methods := Some (allowedMethods b);
                MaxAge := Some (int32 (maxAgeInSeconds b));
                AllowCredentials := Some (allowCredentials b) |}).
Proof.
  intros Hget Hblocks Hlast. unfold expandAzureRMhealthcareapisCorsConfiguration.
  rewrite Hget. simpl.
  rewrite bool_decide_eq_false_2 by (rewrite length_app; simpl; lia).
  rewrite range_overwrite; [|done|by apply corsIteration_all_ok].
  by rewrite (corsIteration_block _ _ _ Hlast).
Qed.

Lemma expand_auth_last (d : schema.ResourceData) (blocks : list value) (last : value)
    (b : authVars) :
  schema.Get d "authentication_configuration" = VList (blocks ++ [last]) →
  forallb is_auth_block blocks = true →
  auth_block last = Some b →
  expandAzureRMhealthcareapisAuthentication d
  = Ok (Some {| Authority := Some (authority b);
                Audience := Some (audience b);
                SmartProxyEnabled := Some (smart_proxy_enabled b) |}).
Proof.
  intros Hget Hblocks Hlast. unfold expandAzureRMhealthcareapisAuthentication.
  rewrite Hget. simpl.
  rewrite bool_decide_eq_false_2 by (rewrite length_app; simpl; lia).
  rewrite range_overwrite; [|done|by apply authIteration_all_ok].
  by rewrite (authIteration_block _ _ _ Hlast).
Qed.

(** C6. When a [cors_configuration] or [authentication_configuration] list
    holds several blocks, the struct that expand produces has the fields of
    the last block; it does not depend on the blocks before it. *)
Theorem expand_keeps_last_block_only :
  (∀ (d : schema.ResourceData) (blocks : list value) (last : value) (b : corsVars),
      schema.Get d "cors_configuration" = VList (blocks ++ [last]) →
      blocks ≠ [] →
      forallb is_cors_block blocks = true →
      cors_block last = Some b →
      expandAzureRMhealthcareapisCorsConfiguration d
      = Ok (Some {| Origins := Some (allowedOrigins b);
                    Headers := Some (allowedHeaders b);
                    Methods := Some (allowedMethods b);
                    MaxAge := Some (int32 (maxAgeInSeconds b));
                    AllowCredentials := Some (allowCredentials b) |})) ∧
  (∀ (d : schema.ResourceData) (blocks : list value) (last : value) (b : authVars),
      schema.Get d "authentication_configuration" = VList (blocks ++ [last]) →
      blocks ≠ [] →
      forallb is_auth_block blocks = true →
      auth_block last = Some b →
      expandAzureRMhealthcareapisAuthentication d
      = Ok (Some {| Authority := Some (authority b);
                    Audience := Some (audience b);
                    SmartProxyEnabled := Some (smart_proxy_enabled b) |})).
Proof.
  split; intros d blocks last b Hget _ Hblocks Hlast.
  - by eapply expand_cors_last.
  - by eapply expand_auth_last.
Qed.

(** [config_two_blocks] expands to the fields of the second block of each list. *)
Lemma expand_keeps_last_block_only_witness :
  expandAzureRMhealthcareapisCorsConfiguration config_two_blocks
  = Ok (Some {| Origins := Some (Slice ["http://b.example"; "http://c.example"]);
                Headers := Some (Slice []);
                Methods := Some (Slice ["PUT"; "POST"]);
                MaxAge := Some (int32 500);
                AllowCredentials := Some true |}) ∧
  expandAzureRMhealthcareapisAuthentication config_two_blocks
  = Ok (Some {| Authority := Some "https://login.example/b";
                Audience := Some "https://b.example";
                SmartProxyEnabled := Some true |}).
Proof.
  split.
  - apply (proj1 expand_keeps_last_block_only config_two_blocks [cors_block_a]
             cors_block_b
             {| allowedOrigins := Slice ["http://b.example"; "http://c.example"];
                allowedHeaders := Slice []; allowedMethods := Slice ["PUT"; "POST"];
                maxAgeInSeconds := 500; allowCredentials := true |});
      [vm_compute; reflexivity | discriminate | vm_compute; reflexivity
      | vm_compute; reflexivity].
  - apply (proj2 expand_keeps_last_block_only config_two_blocks [auth_block_a]
             auth_block_b
             {| authority := "https://login.example/b";
                audience := "https://b.example"; smart_proxy_enabled := true |});
      [vm_compute; reflexivity | discriminate | vm_compute; reflexivity
      | vm_compute; reflexivity].
Defined.

Lemma cors_block_lookup (m : gmap string value) (b : corsVars) :
  cors_block (VMap m) = Some b →
  m !! "allowed_origins" = Some (of_strings (allowedOrigins b)) ∧
  m !! "allowed_headers" = Some (of_strings (allowedHeaders b)) ∧
  m !! "allowed_methods" = Some (of_strings (allowedMethods b)) ∧
  m !! "max_age_in_seconds" = Some (VInt (maxAgeInSeconds b)) ∧
  m !! "allow_credentials" = Some (VBool (allowCredentials b)).
Proof.
  intros H. unfold cors_block in H.
  repeat (case_match; try done).
  simplify_option_eq. unfold of_strings. simpl.
  repeat match goal with
         | E : strings_of _ = Some _ |- _ => apply strings_of_fmap in E; subst
         end.
  done.
Qed.

Lemma auth_block_lookup (m : gmap string value) (b : authVars) :
  auth_block (VMap m) = Some b →
  m !! "authority" = Some (VString (authority b)) ∧
  m !! "audience" = Some (VString (audience b)) ∧
  m !! "smart_proxy_enabled" = Some (VBool (smart_proxy_enabled b)).
Proof.
  intros H. unfold auth_block in H.
  repeat (case_match; try done).
  by simplify_eq.
Qed.

(** C1, at a configuration without blocks: the configuration holds no
    [cors_configuration] and no [authentication_configuration] block, yet
    expand followed by flatten yields one block (without fields) for each. *)
Lemma flatten_expand_adds_empty_block :
  schema.Get config_minimal "cors_configuration" = VList [] ∧
  flatten_expand_cors config_minimal = Ok [VMap ∅] ∧
  flatten_expand_cors config_minimal ≠ Ok [] ∧
  schema.Get config_minimal "authentication_configuration" = VList [] ∧
  flatten_expand_authentication config_minimal = Ok [VMap ∅] ∧
  flatten_expand_authentication config_minimal ≠ Ok [].
Proof. repeat split; try (vm_compute; reflexivity); vm_compute; discriminate. Qed.

(** C1, as the code has it. Expand followed by flatten turns the list of
    object ids into one map per id, in order, holding the id under
    [object_id]. A non-empty list of CORS or authentication blocks comes back
    as a single block with the fields of the last block of the list
    ([max_age_in_seconds] within 32 bits). An empty list of blocks comes back
    as a single block without fields. *)
Theorem flatten_expand_roundtrip :
  (∀ (d : schema.ResourceData) (ids : list string),
      schema.Get d "access_policy_object_ids" = VList (VString <$> ids) →
      flatten_expand_access_policies d
      = Ok (Slice ((λ id, {["object_id" := VString id]}) <$> ids))) ∧
  (∀ d : schema.ResourceData,
      schema.Get d "cors_configuration" = VList [] →
      flatten_expand_cors d = Ok [VMap ∅]) ∧
  (∀ d : schema.ResourceData,
      schema.Get d "authentication_configuration" = VList [] →
      flatten_expand_authentication d = Ok [VMap ∅]) ∧
  (∀ (d : schema.ResourceData) (blocks : list value) (m : gmap string value)
     (b : corsVars),
      schema.Get d "cors_configuration" = VList (blocks ++ [VMap m]) →
      forallb is_cors_block blocks = true →
      cors_block (VMap m) = Some b →
      int32 (maxAgeInSeconds b) = maxAgeInSeconds b →
      ∃ output,
        flatten_expand_cors d = Ok [VMap output] ∧
        ∀ k, output !! k = if bool_decide (k ∈ cors_keys) then m !! k else None) ∧
  (∀ (d : schema.ResourceData) (blocks : list value) (m : gmap string value)
     (b : authVars),
      schema.Get d "authentication_configuration" = VList (blocks ++ [VMap m]) →
      forallb is_auth_block blocks = true →
      auth_block (VMap m) = Some b →
      ∃ output,
        flatten_expand_authentication d = Ok [VMap output] ∧
        ∀ k, output !! k = if bool_decide (k ∈ auth_keys) then m !! k else None).
Proof.
  split; [|split; [|split; [|split]]].
  - intros d ids Hget. unfold flatten_expand_access_policies.
    rewrite (expand_policies_strings _ _ Hget). cbn [fmap res_fmap].
    rewrite flatten_policies_some. cbn [elems]. by rewrite <- list_fmap_compose.
  - intros d Hget. unfold flatten_expand_cors,
      expandAzureRMhealthcareapisCorsConfiguration. by rewrite Hget.
  - intros d Hget. unfold flatten_expand_authentication,
      expandAzureRMhealthcareapisAuthentication. by rewrite Hget.
  - intros d blocks m b Hget Hblocks Hlast Hage. unfold flatten_expand_cors.
    rewrite (expand_cors_last _ _ _ _ Hget Hblocks Hlast). simpl.
    eexists. split; [reflexivity|]. intros k.
    destruct (cors_block_lookup _ _ Hlast) as (Ho & Hh & Hm & Hn & Hc).
    rewrite Hage. unfold cors_keys.
    case_bool_decide as Hk.
    + set_unfold in Hk. destruct_or!; subst; by simplify_map_eq.
    + set_unfold in Hk.
      repeat (rewrite lookup_insert_ne by (intros <-; naive_solver)). done.
  - intros d blocks m b Hget Hblocks Hlast. unfold flatten_expand_authentication.
    rewrite (expand_auth_last _ _ _ _ Hget Hblocks Hlast). simpl.
    eexists. split; [reflexivity|]. intros k.
    destruct (auth_block_lookup _ _ Hlast) as (Ha & Hu & Hp).
    unfold auth_keys.
    case_bool_decide as Hk.
    + set_unfold in Hk. destruct_or!; subst; by simplify_map_eq.
    + set_unfold in Hk.
      repeat (rewrite lookup_insert_ne by (intros <-; naive_solver)). done.
Qed.

(** The round trip of [config_minimal] and of [config_two_blocks]. *)
Lemma flatten_expand_roundtrip_witness :
  flatten_expand_access_policies config_minimal
    = Ok (Slice [ {["object_id" := VString "11111111-1111-1111-1111-111111111111"]} ]) ∧
  flatten_expand_cors config_minimal = Ok [VMap ∅] ∧
  flatten_expand_authentication config_minimal = Ok [VMap ∅] ∧
  (∃ output,
      flatten_expand_cors config_two_blocks = Ok [VMap output] ∧
      ∀ k, output !! k
           = if bool_decide (k ∈ cors_keys) then cors_fields_b !! k else None) ∧
  (∃ output,
      flatten_expand_authentication config_two_blocks = Ok [VMap output] ∧
      ∀ k, output !! k
           = if bool_decide (k ∈ auth_keys) then auth_fields_b !! k else None).
Proof.
  pose proof flatten_expand_roundtrip as (Hpol & Hcors0 & Hauth0 & Hcors & Hauth).
  split; [|split; [|split; [|split]]].
  - apply (Hpol config_minimal ["11111111-1111-1111-1111-111111111111"]).
    vm_compute. reflexivity.
  - apply (Hcors0 config_minimal). vm_compute. reflexivity.
  - apply (Hauth0 config_minimal). vm_compute. reflexivity.
  - apply (Hcors config_two_blocks [cors_block_a] cors_fields_b
             {| allowedOrigins := Slice ["http://b.example"; "http://c.example"];
                allowedHeaders := Slice []; allowedMethods := Slice ["PUT"; "POST"];
                maxAgeInSeconds := 500; allowCredentials := true |});
      vm_compute; reflexivity.
  - apply (Hauth config_two_blocks [auth_block_a] auth_fields_b
             {| authority := "https://login.example/b";
                audience := "https://b.example"; smart_proxy_enabled := true |});
      vm_compute; reflexivity.
Defined.

(** ** Further properties of the mapper *)

Lemma strings_of_fmap_VString (ss : list string) : strings_of (VString <$> ss) = Some ss.
Proof.
  induction ss as [|s ss IH]; [done|].
  change (strings_of (VString <$> s :: ss)) with (cons s <$> strings_of (VString <$> ss)).
  by rewrite IH.
Qed.

Lemma range_slice_allocated {A B} (l : list A) (acc : list B) (s : slice B)
    (body : slice B → A → res (slice B)) :
  (∀ r x r', body r x = Ok r' → ∃ l', r' = Slice l') →
  range l (Slice acc) body = Ok s →
  ∃ l', s = Slice l'.
Proof.
  intros Hbody. revert acc. induction l as [|x l IH]; intros acc; simpl.
  - intros [= <-]. by eexists.
  - destruct (body (Slice acc) x) as [r1|msg] eqn:Hx; simpl; [|done].
    destruct (Hbody _ _ _ Hx) as (l1 & ->). apply IH.
Qed.

Lemma range_strings_inv {B} (l : list value) (acc s : slice B) (g : string → B) :
  range l acc (λ result item, x ← as_string item; mret (append result (g x))) = Ok s →
  ∃ ss, l = VString <$> ss.
Proof.
  revert acc. induction l as [|v l IH]; intros acc; simpl.
  - intros _. by exists [].
  - destruct v; simpl; try done. intros Hr.
    destruct (IH _ Hr) as (ss & ->). by eexists (_ :: ss).
Qed.

Lemma ExpandStringSlice_inv (l : list value) (s : slice string) :
  utils.ExpandStringSlice l = Ok s → ∃ ss, strings_of l = Some ss ∧ s = Slice ss.
Proof.
  intros Hr. destruct (range_strings_inv l make s (λ x, x) Hr) as (ss & ->).
  exists ss. split; [apply strings_of_fmap_VString|].
  rewrite (ExpandStringSlice_strings _ ss) in Hr by apply strings_of_fmap_VString.
  by injection Hr.
Qed.

Lemma corsIteration_inv (vars vars' : corsVars) (v : value) :
  corsIteration vars v = Ok vars' → is_cors_block v = true.
Proof.
  unfold corsIteration, is_cors_block, cors_block, index.
  destruct v as [| | | | |m]; simpl; try done.
  destruct (m !! "allowed_origins") as [[| | | |o|]|]; simpl; try done.
  destruct (utils.ExpandStringSlice o) as [so|] eqn:Ho; simpl; [|done].
  destruct (m !! "allowed_headers") as [[| | | |h|]|]; simpl; try done.
  destruct (utils.ExpandStringSlice h) as [sh|] eqn:Hh; simpl; [|done].
  destruct (m !! "allowed_methods") as [[| | | |me|]|]; simpl; try done.
  destruct (utils.ExpandStringSlice me) as [sm|] eqn:Hm; simpl; [|done].
  destruct (m !! "max_age_in_seconds") as [[| |n| | |]|]; simpl; try done.
  destruct (m !! "allow_credentials") as [[| | |c| |]|]; simpl; try done.
  apply ExpandStringSlice_inv in Ho as (? & -> & _).
  apply ExpandStringSlice_inv in Hh as (? & -> & _).
  apply ExpandStringSlice_inv in Hm as (? & -> & _).
  done.
Qed.

Lemma authIteration_inv (vars vars' : authVars) (v : value) :
  authIteration vars v = Ok vars' → is_auth_block v = true.
Proof.
  unfold authIteration, is_auth_block, auth_block, index.
  destruct v as [| | | | |m]; simpl; try done.
  destruct (m !! "authority") as [[]|]; simpl; try done.
  destruct (m !! "audience") as [[]|]; simpl; try done.
  destruct (m !! "smart_proxy_enabled") as [[]|]; simpl; try done.
Qed.

Lemma range_all_ok {A S} (f : A → bool) (body : S → A → res S) (l : list A) (s s' : S) :
  (∀ s1 s2 x, body s1 x = Ok s2 → f x = true) →
  range l s body = Ok s' → forallb f l = true.
Proof.
  intros Hf. revert s. induction l as [|x l IH]; intros s; simpl; [done|].
  destruct (body s x) as [s1|msg] eqn:Hx; simpl; [|done].
  intros Hr. by rewrite (Hf _ _ _ Hx), (IH _ Hr).
Qed.

Lemma range_ok_of_all {A S} (body : S → A → res S) (l : list A) (s : S) :
  (∀ x, x ∈ l → ∀ s1, ∃ s2, body s1 x = Ok s2) →
  ∃ s', range l s body = Ok s'.
Proof.
  revert s. induction l as [|x l IH]; intros s Hl; simpl; [by eexists|].
  destruct (Hl x ltac:(set_solver) s) as (s1 & ->). simpl.
  apply IH. intros y Hy. apply Hl. set_solver.
Qed.

Lemma forallb_elem_of {A} (f : A → bool) (l : list A) (x : A) :
  forallb f l = true → x ∈ l → f x = true.
Proof.
  intros Hl Hx. apply list_elem_of_In in Hx.
  by apply (proj1 (forallb_forall f l) Hl).
Qed.

Lemma expand_results_not_nil (d : schema.ResourceData) :
  (∀ r, expandAzureRMhealthcareapisAccessPolicyEntries d = Ok r →
        ∃ entries, r = Some (Slice entries)) ∧
  (∀ r, expandAzureRMhealthcareapisCorsConfiguration d = Ok r →
        ∃ c, r = Some c ∧
             (c = ServiceCorsConfigurationInfo_zero ∨
              (is_Some (Origins c) ∧ is_Some (Headers c) ∧ is_Some (Methods c) ∧
               is_Some (MaxAge c) ∧ is_Some (AllowCredentials c)))) ∧
  (∀ r, expandAzureRMhealthcareapisAuthentication d = Ok r →
        ∃ a, r = Some a ∧
             (a = ServiceAuthenticationConfigurationInfo_zero ∨
              (is_Some (Authority a) ∧ is_Some (Audience a) ∧
               is_Some (SmartProxyEnabled a)))).
Proof.
  split; [|split]; intros r.
  - unfold expandAzureRMhealthcareapisAccessPolicyEntries.
    destruct (as_list _) as [l|]; simpl; [|done].
    destruct (range l make _) as [s|] eqn:Hr; simpl; [|done].
    intros [= <-].
    apply range_slice_allocated in Hr as (entries & ->); [by eexists|].
    intros acc v acc'. destruct v; simpl; try done. intros [= <-]. by eexists.
  - unfold expandAzureRMhealthcareapisCorsConfiguration.
    destruct (as_list _) as [l|]; simpl; [|done].
    case_bool_decide; simpl.
    + intros [= <-]. eexists. split; [done|by left].
    + destruct (range l _ corsIteration) as [vars|]; simpl; [|done].
      intros [= <-]. eexists. split; [done|]. right. simpl. by repeat split.
  - unfold expandAzureRMhealthcareapisAuthentication.
    destruct (as_list _) as [l|]; simpl; [|done].
    case_bool_decide; simpl.
    + intros [= <-]. eexists. split; [done|by left].
    + destruct (range l _ authIteration) as [vars|]; simpl; [|done].
      intros [= <-]. eexists. split; [done|]. right. simpl. by repeat split.
Qed.

(** X1. The expand functions never return a nil pointer: whenever one
    returns, the pointer is non-nil. The access-policy slice is an allocated
    one, also when it has no element, and a CORS or authentication struct has
    either none or all of its fields set. *)
Theorem expand_never_returns_nil (d : schema.ResourceData) :
  (∀ r, expandAzureRMhealthcareapisAccessPolicyEntries d = Ok r →
        ∃ entries, r = Some (Slice entries)) ∧
  (∀ r, expandAzureRMhealthcareapisCorsConfiguration d = Ok r →
        ∃ c, r = Some c ∧
             (c = ServiceCorsConfigurationInfo_zero ∨
              (is_Some (Origins c) ∧ is_Some (Headers c) ∧ is_Some (Methods c) ∧
               is_Some (MaxAge c) ∧ is_Some (AllowCredentials c)))) ∧
  (∀ r, expandAzureRMhealthcareapisAuthentication d = Ok r →
        ∃ a, r = Some a ∧
             (a = ServiceAuthenticationConfigurationInfo_zero ∨
              (is_Some (Authority a) ∧ is_Some (Audience a) ∧
               is_Some (SmartProxyEnabled a)))).
Proof. apply expand_results_not_nil. Qed.

(** At [config_minimal] and [config_two_blocks]. *)
Lemma expand_never_returns_nil_witness :
  (∃ entries,
      Some (Slice [ {| ObjectID := Some "11111111-1111-1111-1111-111111111111" |} ])
      = Some (Slice entries)) ∧
  (∃ c, Some ServiceCorsConfigurationInfo_zero = Some c ∧
        (c = ServiceCorsConfigurationInfo_zero ∨
         (is_Some (Origins c) ∧ is_Some (Headers c) ∧ is_Some (Methods c) ∧
          is_Some (MaxAge c) ∧ is_Some (AllowCredentials c)))) ∧
  (∃ a, Some {| Authority := Some "https://login.example/b";
                Audience := Some "https://b.example";
                SmartProxyEnabled := Some true |} = Some a ∧
        (a = ServiceAuthenticationConfigurationInfo_zero ∨
         (is_Some (Authority a) ∧ is_Some (Audience a) ∧
          is_Some (SmartProxyEnabled a)))).
Proof.
  split; [|split].
  - apply (proj1 (expand_never_returns_nil config_minimal)). vm_compute. reflexivity.
  - apply (proj1 (proj2 (expand_never_returns_nil config_minimal))).
    vm_compute. reflexivity.
  - apply (proj2 (proj2 (expand_never_returns_nil config_two_blocks))).
    vm_compute. reflexivity.
Defined.

(** X2. The expand functions return exactly on the values that pass their
    type assertions, and panic on every other: the access-policy field must
    hold a list of strings, and the CORS and authentication fields a list of
    blocks that hold each of their fields with its declared type. *)
Theorem expand_returns_iff_well_typed (d : schema.ResourceData) :
  ((∃ r, expandAzureRMhealthcareapisAccessPolicyEntries d = Ok r) ↔
   (∃ ids, schema.Get d "access_policy_object_ids" = VList (VString <$> ids))) ∧
  ((∃ r, expandAzureRMhealthcareapisCorsConfiguration d = Ok r) ↔
   (∃ blocks, schema.Get d "cors_configuration" = VList blocks ∧
              forallb is_cors_block blocks = true)) ∧
  ((∃ r, expandAzureRMhealthcareapisAuthentication d = Ok r) ↔
   (∃ blocks, schema.Get d "authentication_configuration" = VList blocks ∧
              forallb is_auth_block blocks = true)).
Proof.
  split; [|split]; split.
  - intros (r & Hr). revert Hr. unfold expandAzureRMhealthcareapisAccessPolicyEntries.
    destruct (schema.Get d "access_policy_object_ids") as [| | | |l|]; simpl; try done.
    destruct (range l make _) as [s|] eqn:Hrange; simpl; [|done]. intros _.
    apply (range_strings_inv l make s (λ x, {| ObjectID := Some x |})) in Hrange
      as (ids & ->).
    by exists ids.
  - intros (ids & Hget). eexists. by apply expand_policies_strings.
  - intros (r & Hr). revert Hr. unfold expandAzureRMhealthcareapisCorsConfiguration.
    destruct (schema.Get d "cors_configuration") as [| | | |l|]; simpl; try done.
    case_bool_decide as Hlen; simpl.
    + intros _. destruct l; [|done]. by exists [].
    + destruct (range l _ corsIteration) as [vars|] eqn:Hrange; simpl; [|done].
      intros _. exists l. split; [done|].
      eapply range_all_ok; [|exact Hrange]. apply corsIteration_inv.
  - intros (blocks & Hget & Hblocks).
    unfold expandAzureRMhealthcareapisCorsConfiguration. rewrite Hget. simpl.
    case_bool_decide; simpl; [by eexists|].
    edestruct (range_ok_of_all corsIteration blocks) as (vars & ->); [|by eexists].
    intros v Hv s1.
    pose proof (forallb_elem_of _ _ _ Hblocks Hv) as Hb.
    unfold is_cors_block in Hb. destruct (cors_block v) as [b|] eqn:Hcb; [|done].
    eexists. by apply corsIteration_block.
  - intros (r & Hr). revert Hr. unfold expandAzureRMhealthcareapisAuthentication.
    destruct (schema.Get d "authentication_configuration") as [| | | |l|]; simpl; try done.
    case_bool_decide as Hlen; simpl.
    + intros _. destruct l; [|done]. by exists [].
    + destruct (range l _ authIteration) as [vars|] eqn:Hrange; simpl; [|done].
      intros _. exists l. split; [done|].
      eapply range_all_ok; [|exact Hrange]. apply authIteration_inv.
  - intros (blocks & Hget & Hblocks).
    unfold expandAzureRMhealthcareapisAuthentication. rewrite Hget. simpl.
    case_bool_decide; simpl; [by eexists|].
    edestruct (range_ok_of_all authIteration blocks) as (vars & ->); [|by eexists].
    intros v Hv s1.
    pose proof (forallb_elem_of _ _ _ Hblocks Hv) as Hb.
    unfold is_auth_block in Hb. destruct (auth_block v) as [b|] eqn:Hcb; [|done].
    eexists. by apply authIteration_block.
Qed.

(** [config_two_blocks] is well typed, so the three expansions return. *)
Lemma expand_returns_iff_well_typed_witness :
  (∃ r, expandAzureRMhealthcareapisAccessPolicyEntries config_two_blocks = Ok r) ∧
  (∃ r, expandAzureRMhealthcareapisCorsConfiguration config_two_blocks = Ok r) ∧
  (∃ r, expandAzureRMhealthcareapisAuthentication config_two_blocks = Ok r).
Proof.
  pose proof (expand_returns_iff_well_typed config_two_blocks) as (Hp & Hc & Ha).
  split; [|split].
  - apply Hp. exists ["11111111-1111-1111-1111-111111111111"]. vm_compute. reflexivity.
  - apply Hc. exists [cors_block_a; cors_block_b]. split; vm_compute; reflexivity.
  - apply Ha. exists [auth_block_a; auth_block_b]. split; vm_compute; reflexivity.
Defined.

Lemma int32_range (n : Z) : - 2 ^ 31 ≤ int32 n < 2 ^ 31.
Proof. unfold int32. pose proof (Z.mod_pos_bound (n + 2 ^ 31) (2 ^ 32)). lia. Qed.

Lemma int32_small (n : Z) : - 2 ^ 31 ≤ n < 2 ^ 31 → int32 n = n.
Proof. intros Hn. unfold int32. rewrite Z.mod_small; lia. Qed.

Lemma int32_congruent (n : Z) : (int32 n - n) mod 2 ^ 32 = 0.
Proof.
  unfold int32.
  replace ((n + 2 ^ 31) mod 2 ^ 32 - 2 ^ 31 - n)
    with ((n + 2 ^ 31) mod 2 ^ 32 - (n + 2 ^ 31)) by lia.
  rewrite Zminus_mod, Z.mod_mod, Z.sub_diag by lia. done.
Qed.

(** X3. The [max_age_in_seconds] of the last block goes through a
    conversion to 32 bits: the [MaxAge] that expand returns lies in the
    signed 32-bit range and differs from the configured value by a multiple
    of 2^32; within the bounds the schema sets (1 to 2000000000) it is the
    configured value. *)
Theorem expand_max_age_is_32_bit (d : schema.ResourceData) (blocks : list value)
    (last : value) (b : corsVars) :
  schema.Get d "cors_configuration" = VList (blocks ++ [last]) →
  forallb is_cors_block blocks = true →
  cors_block last = Some b →
  ∃ c n,
    expandAzureRMhealthcareapisCorsConfiguration d = Ok (Some c) ∧
    MaxAge c = Some n ∧
    - 2 ^ 31 ≤ n < 2 ^ 31 ∧
    (n - maxAgeInSeconds b) mod 2 ^ 32 = 0 ∧
    ((1 ≤ maxAgeInSeconds b ≤ 2000000000)%Z → n = maxAgeInSeconds b).
Proof.
  intros Hget Hblocks Hlast. do 2 eexists.
  split; [by eapply expand_cors_last|]. split; [reflexivity|].
  split; [apply int32_range|]. split; [apply int32_congruent|].
  intros Hn. apply int32_small. lia.
Qed.

(** A block that asks for 2^32 + 5 seconds. *)
Lemma expand_max_age_is_32_bit_witness :
  ∃ c n,
    expandAzureRMhealthcareapisCorsConfiguration
      (with_field config_minimal "cors_configuration"
         (VList [cors_block_a;
                 VMap (<["max_age_in_seconds" := VInt 4294967301]> cors_fields_b)]))
      = Ok (Some c) ∧
    MaxAge c = Some n ∧
    - 2 ^ 31 ≤ n < 2 ^ 31 ∧
    (n - 4294967301) mod 2 ^ 32 = 0 ∧
    ((1 ≤ 4294967301 ≤ 2000000000)%Z → n = 4294967301).
Proof.
  apply (expand_max_age_is_32_bit
           (with_field config_minimal "cors_configuration"
              (VList [cors_block_a;
                      VMap (<["max_age_in_seconds" := VInt 4294967301]> cors_fields_b)]))
           [cors_block_a]
           (VMap (<["max_age_in_seconds" := VInt 4294967301]> cors_fields_b))
           {| allowedOrigins := Slice ["http://b.example"; "http://c.example"];
              allowedHeaders := Slice []; allowedMethods := Slice ["PUT"; "POST"];
              maxAgeInSeconds := 4294967301; allowCredentials := true |});
    vm_compute; reflexivity.
Defined.

(** X4. Expand undoes flatten on a populated authentication struct: a
    configuration that holds, as its only block, the map Read builds from an
    authentication struct with its three fields set expands to that struct
    again. The map holds two Go strings and a bool, which is what the
    assertions of expand ask for. (The CORS map of Read holds [[]string] and
    [int32] values, which the assertions of the CORS expand do not accept as
    they are; no round trip is stated for it.) *)
Theorem expand_after_flatten (d : schema.ResourceData) (authority audience : string)
    (smart_proxy_enabled : bool) :
  let a := {| Authority := Some authority; Audience := Some audience;
              SmartProxyEnabled := Some smart_proxy_enabled |} in
  schema.Get d "authentication_configuration" = VList (authOutput (Some a)) →
  expandAzureRMhealthcareapisAuthentication d = Ok (Some a).
Proof.
  intros a Hget.
  apply (expand_auth_last d [] _
           {| authority := authority; audience := audience;
              smart_proxy_enabled := smart_proxy_enabled |} Hget); [done|].
  unfold auth_block. by simplify_map_eq.
Qed.

(** An authentication struct with every field set. *)
Lemma expand_after_flatten_witness :
  expandAzureRMhealthcareapisAuthentication
    (with_field config_minimal "authentication_configuration"
       (VList (authOutput (Some {| Authority := Some "https://login.example/a";
                                   Audience := Some "https://a.example";
                                   SmartProxyEnabled := Some false |}))))
  = Ok (Some {| Authority := Some "https://login.example/a";
                Audience := Some "https://a.example";
                SmartProxyEnabled := Some false |}).
Proof.
  apply (expand_after_flatten
           (with_field config_minimal "authentication_configuration"
              (VList (authOutput
                 (Some {| Authority := Some "https://login.example/a";
                          Audience := Some "https://a.example";
                          SmartProxyEnabled := Some false |}))))
           "https://login.example/a" "https://a.example" false).
  vm_compute. reflexivity.
Defined.

(** ** Properties of the lifecycle handler *)
Section handler_properties.

Context {R Future : Type}.
Variable client : HealthcareServiceClient R Future.
Variable parseAzureResourceID : string → ResourceID + error.
Variable requireResourcesToBeImported : bool.
Variable NormalizeLocation : string → string.
Variable expandTags : gmap string value → gmap string (option string).
Variable flattenTags : gmap string (option string) → value.
Variable flattenHealthcareAccessPolicies :
  option (slice ServiceAccessPolicyEntry) → value.
Variable schemaCheck : string → value → option error.

Abbreviation ServiceRead :=
  (resourceArmHealthcareServiceRead client parseAzureResourceID NormalizeLocation
     flattenTags flattenHealthcareAccessPolicies schemaCheck).
Abbreviation ServiceCreateUpdate :=
  (resourceArmHealthcareServiceCreateUpdate client parseAzureResourceID
     requireResourcesToBeImported NormalizeLocation expandTags flattenTags
     flattenHealthcareAccessPolicies schemaCheck).
Abbreviation ServiceDelete := (resourceArmHealthcareServiceDelete client parseAzureResourceID).

(** C9. When the identifier parser rejects the stored identifier, Read and
    Delete return an error and leave everything as it was: no call of the
    transport is made, and neither the identifier nor any field is written.
    Only the parser's error is tested: an identifier that parses and lacks
    the [services] segment is not covered, the handlers go on with it. *)
Theorem unparsable_id_fails_before_any_call (w : world R Future) (err : error) :
  parseAzureResourceID (schema.Id (data w)) = inr err →
  ServiceRead w = (Return (Some err), w) ∧
  ServiceDelete w
  = (Return (Some (Errorf "Error Parsing Azure Resource ID: %+v" [ArgError err])), w).
Proof.
  intros Hparse. split.
  - unfold resourceArmHealthcareServiceRead, mbind, handler_bind, d_. by rewrite Hparse.
  - unfold resourceArmHealthcareServiceDelete, mbind, handler_bind, d_. by rewrite Hparse.
Qed.

(** C3. When the stored identifier parses and the Get of Read fails: on a
    not-found response Read sets the stored identifier to the empty string
    and returns nil; on any other failure Read returns an error and leaves
    the resource data, the identifier included, as it was. *)
Theorem read_not_found_clears_id (w : world R Future) (id : ResourceID) (r' : R)
    (resp : ServicesDescription) (err : error) :
  let resourceGroup := ResourceGroup id in
  let name := default "" (Path id !! "services") in
  parseAzureResourceID (schema.Id (data w)) = inl id →
  Get client resourceGroup name (remote w) = (r', (resp, Some err)) →
  (utils.ResponseWasNotFound (Response resp) = true →
   ServiceRead w
   = (Return None,
      {| data := schema.SetId (data w) "";
         remote := r';
         trace := trace w ++ [EvGet resourceGroup name resp (Some err); EvSetId ""] |})) ∧
  (utils.ResponseWasNotFound (Response resp) = false →
   ServiceRead w
   = (Return (Some (Errorf
        "Error making Read request on Azure Healthcare Service %q (Resource Group %q): %+v"
        [ArgString name; ArgString resourceGroup; ArgError err])),
      {| data := data w;
         remote := r';
         trace := trace w ++ [EvGet resourceGroup name resp (Some err)] |})).
Proof.
  intros resourceGroup name Hparse Hget.
  split; intros Hnf;
    unfold resourceArmHealthcareServiceRead, mbind, handler_bind, d_, client_Get;
    rewrite Hparse; fold resourceGroup name; rewrite Hget; simpl; rewrite Hnf; simpl.
  - unfold record. simpl. by rewrite <- app_assoc.
  - done.
Qed.


Lemma delete_returns (w : world R Future) :
  ∃ err w' evs,
    ServiceDelete w = (Return err, w') ∧
    data w' = data w ∧
    trace w' = trace w ++ evs ∧
    forallb is_call evs = true.
Proof.
  unfold resourceArmHealthcareServiceDelete, mbind, handler_bind, d_, client_Delete,
    future_WaitForCompletionRef.
  destruct (parseAzureResourceID (schema.Id (data w))) as [id|err].
  - destruct (Delete client (ResourceGroup id) (default "" (Path id !! "services"))
                (remote w)) as [r1 [future [err|]]]; simpl.
    + do 2 eexists. eexists [_]. split; [reflexivity|]. by repeat split.
    + destruct (WaitForCompletionRef client future r1) as [r2 [err|]]; simpl;
        do 2 eexists; eexists [_; _]; (split; [reflexivity|]);
        (split; [done|]); (split; [simpl; by rewrite <- app_assoc|done]).
  - do 2 eexists. exists []. split; [reflexivity|]. split; [done|].
    split; [by rewrite app_nil_r|done].
Qed.

(** C8. Delete always returns (it does not panic) and never writes the
    resource data: the stored identifier and the fields are the same after
    it, whatever the outcome. The same holds for a second Delete run after
    it, which returns the error of the transport's Delete call, wrapped, when
    that call fails. *)
Theorem delete_leaves_identifier_alone (w : world R Future) :
  ∃ err1 w1 evs1 err2 w2 evs2,
    ServiceDelete w = (Return err1, w1) ∧
    data w1 = data w ∧
    trace w1 = trace w ++ evs1 ∧ forallb is_call evs1 = true ∧
    ServiceDelete w1 = (Return err2, w2) ∧
    data w2 = data w ∧
    trace w2 = trace w1 ++ evs2 ∧ forallb is_call evs2 = true ∧
    ∀ id r' future err,
      parseAzureResourceID (schema.Id (data w)) = inl id →
      Delete client (ResourceGroup id) (default "" (Path id !! "services")) (remote w1)
        = (r', (future, Some err)) →
      err2 = Some (Errorf
        "Error deleting Healthcare Service %q (Resource Group %q): %+v"
        [ArgString (default "" (Path id !! "services")); ArgString (ResourceGroup id);
         ArgError err]).
Proof.
  destruct (delete_returns w) as (err1 & w1 & evs1 & Hrun1 & Hdata1 & Htrace1 & Hcalls1).
  destruct (delete_returns w1) as (err2 & w2 & evs2 & Hrun2 & Hdata2 & Htrace2 & Hcalls2).
  exists err1, w1, evs1, err2, w2, evs2.
  repeat split; try done; [congruence|].
  intros id r' future err Hparse Hdel.
  revert Hrun2.
  unfold resourceArmHealthcareServiceDelete, mbind, handler_bind, d_, client_Delete.
  rewrite Hdata1, Hparse, Hdel. simpl. congruence.
Qed.

Lemma prepared_arguments_inv (d : schema.ResourceData) (name resGroup : string) :
  prepared_arguments d = Some (name, resGroup) →
  ∃ location tags kind cdba,
    schema.Get d "name" = VString name ∧
    schema.Get d "resource_group_name" = VString resGroup ∧
    schema.Get d "location" = VString location ∧
    schema.Get d "tags" = VMap tags ∧
    schema.Get d "kind" = VString kind ∧
    schema.Get d "cosmosdb_throughput" = VInt cdba.
Proof.
  unfold prepared_arguments. intros H.
  repeat (case_match; try done). simplify_eq.
  by do 4 eexists.
Qed.

(** C4, as the code has it. On a new resource with import protection on,
    when the preliminary Get hands back a non-nil, non-empty identifier and
    either succeeds or fails with a not-found response, Create returns the
    "already exists" error for [azurerm_healthcare_service] and that
    identifier; the Get is its only call of the transport and the resource
    data is left as it was. *)
Theorem create_refuses_existing_resource (w : world R Future) (name resGroup : string)
    (r' : R) (existing : ServicesDescription) (err : option error) (id : string) :
  requireResourcesToBeImported = true →
  schema.IsNewResource (data w) = true →
  prepared_arguments (data w) = Some (name, resGroup) →
  Get client resGroup name (remote w) = (r', (existing, err)) →
  ID existing = Some id →
  id ≠ "" →
  err = None ∨ utils.ResponseWasNotFound (Response existing) = true →
  ServiceCreateUpdate w
  = (Return (Some (tf.ImportAsExistsError "azurerm_healthcare_service" id)),
     {| data := data w; remote := r';
        trace := trace w ++ [EvGet resGroup name existing err] |}).
Proof.
  intros Himport Hnew Hargs Hget Hid Hne Herr.
  destruct (prepared_arguments_inv _ _ _ Hargs)
    as (location & tags & kind & cdba & Hn & Hg & Hl & Ht & Hk & Hc).
  unfold resourceArmHealthcareServiceCreateUpdate, mbind, handler_bind, d_, client_Get.
  rewrite Hn, Hg, Hl, Ht, Hk, Hc, Himport, Hnew. simpl.
  rewrite Hget. simpl. rewrite Hid.
  rewrite (bool_decide_eq_true_2 _ Hne).
  destruct Herr as [->|Hnf]; [done|].
  destruct err; [|done]. by rewrite Hnf.
Qed.

(** *** Events of a computation *)

Lemma handler_bind_eq {A B} (m : @handler R Future A) (k : A → @handler R Future B) (w : world R Future) :
  (m ≫= k) w
  = match m w with
    | (Next a, w') => k a w'
    | (Return e, w') => (Return e, w')
    | (Panicked msg, w') => (Panicked msg, w')
    end.
Proof. reflexivity. Qed.

Lemma emits_bind {A B} (P : event Future → bool) (m : @handler R Future A)
    (k : A → @handler R Future B) :
  emits P m → (∀ a, emits P (k a)) → emits P (m ≫= k).
Proof.
  intros Hm Hk w. rewrite handler_bind_eq.
  destruct (Hm w) as (evs1 & Ht1 & HP1).
  destruct (m w) as [[a|e|msg] w1]; simpl in *.
  - destruct (Hk a w1) as (evs2 & Ht2 & HP2).
    exists (evs1 ++ evs2). rewrite Ht2, Ht1, <- app_assoc. split; [done|].
    rewrite forallb_app. by rewrite HP1, HP2.
  - by exists evs1.
  - by exists evs1.
Qed.

Lemma emits_nothing {A} (P : event Future → bool) (m : @handler R Future A) :
  (∀ w, trace (m w).2 = trace w) → emits P m.
Proof. intros Hm w. exists []. by rewrite app_nil_r, Hm. Qed.

Lemma emits_ret {A} (P : event Future → bool) (a : A) : emits P (mret a : @handler R Future A).
Proof. by apply emits_nothing. Qed.

Lemma emits_return {A} (P : event Future → bool) (e : option error) :
  emits P (return_ e : @handler R Future A).
Proof. by apply emits_nothing. Qed.

Lemma emits_d_Set (P : event Future → bool) (key : string) (v : value) :
  emits P (d_Set schemaCheck key v : @handler R Future _).
Proof.
  apply emits_nothing. intros w. unfold d_Set, schema.Set_.
  by destruct (schemaCheck key v).
Qed.

Lemma emits_d_ (P : event Future → bool) : emits P (d_ : @handler R Future _).
Proof. by apply emits_nothing. Qed.

Lemma emits_client_Get (P : event Future → bool) (resourceGroup name : string) :
  (∀ result err, P (EvGet resourceGroup name result err) = true) →
  emits P (client_Get client resourceGroup name).
Proof.
  intros HP w. unfold client_Get.
  destruct (Get client resourceGroup name (remote w)) as [r' [result err]]. simpl.
  eexists [_]. split; [done|]. simpl. by rewrite HP.
Qed.

Lemma emits_d_SetId (P : event Future → bool) (v : string) :
  P (EvSetId v) = true → emits P (d_SetId v : @handler R Future _).
Proof. intros HP w. eexists [_]. split; [done|]. simpl. by rewrite HP. Qed.

Lemma read_emits : emits is_read_event ServiceRead.
Proof.
  unfold resourceArmHealthcareServiceRead, flattenAndSetTags.
  repeat first
    [ apply emits_bind
    | apply emits_ret
    | apply emits_return
    | apply emits_d_Set
    | apply emits_d_
    | apply emits_client_Get; done
    | apply emits_d_SetId; done
    | intros ?
    | case_match ].
Qed.

(** *** Stepping through a handler *)

Lemma step_d_ {B} (k : schema.ResourceData → @handler R Future B) (w : world R Future) :
  (d_ ≫= k) w = k (data w) w.
Proof. reflexivity. Qed.

Lemma step_lift {A B} (r : res A) (k : A → @handler R Future B) (w : world R Future) :
  (lift r ≫= k) w = match r with Ok a => k a w | Panic msg => (Panicked msg, w) end.
Proof. by destruct r. Qed.

Lemma step_ret {A B} (a : A) (k : A → @handler R Future B) (w : world R Future) :
  (mret a ≫= k) w = k a w.
Proof. reflexivity. Qed.

Lemma step_return {A B} (e : option error) (k : A → @handler R Future B) (w : world R Future) :
  (return_ e ≫= k) w = (Return e, w).
Proof. reflexivity. Qed.

Lemma step_assoc {A B C} (m : @handler R Future A) (k1 : A → @handler R Future B)
    (k2 : B → @handler R Future C) (w : world R Future) :
  ((m ≫= k1) ≫= k2) w = (m ≫= λ a, k1 a ≫= k2) w.
Proof. rewrite !handler_bind_eq. by destruct (m w) as [[a|e|msg] w']. Qed.

Lemma step_client_Get {B} (resourceGroup name : string)
    (k : ServicesDescription * option error → @handler R Future B) (w : world R Future) :
  (client_Get client resourceGroup name ≫= k) w
  = k (Get client resourceGroup name (remote w)).2
      {| data := data w; remote := (Get client resourceGroup name (remote w)).1;
         trace := trace w ++ [EvGet resourceGroup name
                                (Get client resourceGroup name (remote w)).2.1
                                (Get client resourceGroup name (remote w)).2.2] |}.
Proof.
  rewrite handler_bind_eq. unfold client_Get.
  by destruct (Get client resourceGroup name (remote w)) as [r' [result err]].
Qed.

Lemma step_client_CreateOrUpdate {B} (resourceGroup name : string)
    (body : ServicesDescription)
    (k : Future * option error → @handler R Future B) (w : world R Future) :
  (client_CreateOrUpdate client resourceGroup name body ≫= k) w
  = k (CreateOrUpdate client resourceGroup name body (remote w)).2
      {| data := data w;
         remote := (CreateOrUpdate client resourceGroup name body (remote w)).1;
         trace := trace w ++ [EvCreateOrUpdate resourceGroup name body
                     (CreateOrUpdate client resourceGroup name body (remote w)).2.1
                     (CreateOrUpdate client resourceGroup name body (remote w)).2.2] |}.
Proof.
  rewrite handler_bind_eq. unfold client_CreateOrUpdate.
  by destruct (CreateOrUpdate client resourceGroup name body (remote w))
    as [r' [future err]].
Qed.

Lemma step_future_WaitForCompletionRef {B} (future : Future)
    (k : option error → @handler R Future B) (w : world R Future) :
  (future_WaitForCompletionRef client future ≫= k) w
  = k (WaitForCompletionRef client future (remote w)).2
      {| data := data w; remote := (WaitForCompletionRef client future (remote w)).1;
         trace := trace w ++ [EvWait future
                                (WaitForCompletionRef client future (remote w)).2] |}.
Proof.
  rewrite handler_bind_eq. unfold future_WaitForCompletionRef.
  by destruct (WaitForCompletionRef client future (remote w)) as [r' err].
Qed.

Lemma step_d_SetId {B} (v : string) (k : unit → @handler R Future B) (w : world R Future) :
  (d_SetId v ≫= k) w
  = k tt {| data := schema.SetId (data w) v; remote := remote w;
            trace := trace w ++ [EvSetId v] |}.
Proof. reflexivity. Qed.

Ltac mstep :=
  first
    [ rewrite step_d_ | rewrite step_lift | rewrite step_ret | rewrite step_return
    | rewrite step_client_Get | rewrite step_client_CreateOrUpdate
    | rewrite step_future_WaitForCompletionRef | rewrite step_d_SetId
    | rewrite step_assoc ];
  cbv beta iota.

(** *** The runs of Create/Update *)

Ltac mlift :=
  mstep;
  match goal with
  | |- context [match ?r with Ok _ => _ | Panic _ => _ end] => destruct r
  end.

Ltac mcall :=
  mstep;
  match goal with
  | |- context [Get client ?a ?b ?r] =>
      destruct (Get client a b r) as [? [? ?]]
  | |- context [CreateOrUpdate client ?a ?b ?c ?r] =>
      destruct (CreateOrUpdate client a b c r) as [? [? ?]]
  | |- context [WaitForCompletionRef client ?f ?r] =>
      destruct (WaitForCompletionRef client f r) as [? ?]
  end;
  cbn [fst snd]; cbv beta iota.

Ltac finish_precheck :=
  match goal with
  | HK : ∀ a w1, ∃ out w', _ |- context [match ID ?existing with Some _ => _ | None => _ end] =>
      destruct (ID existing) as [existingID|];
      [destruct (bool_decide (existingID ≠ ""))|];
      mstep;
      first
        [ by do 2 eexists; eexists [_]; (split; [reflexivity|]); split; [|by left]
        | match goal with
          | |- context [?K tt ?W] =>
              destruct (HK tt W) as (out & w' & Hrun & Hshape);
              exists out, w'; eexists [_]; (split; [exact Hrun|]);
              split; [|exact Hshape]; done
          end ]
  end.

(** Every run of Create/Update has one of the five shapes; [P] holds the
    preliminary Get, when it is made. The part from the expansion of the
    configuration on is the same whether or not the Get is made, and is
    stepped through first, from any world [w1]. *)
Lemma create_update_runs (w : world R Future) :
  ∃ out w' P,
    ServiceCreateUpdate w = (out, w') ∧
    forallb is_get P = true ∧
    create_update_shape (trace w ++ P) (data w) out w'.
Proof.
  unfold resourceArmHealthcareServiceCreateUpdate.
  mstep.
  do 6 (mlift; [|by do 2 eexists; exists []; rewrite app_nil_r;
                   split; [|split; [|left]]]).
  match goal with |- context [mbind ?k _ w] => set (K := k) end.
  assert (∀ a w1, ∃ out w',
             K a w1 = (out, w') ∧ create_update_shape (trace w1) (data w1) out w')
    as HK.
  { intros [] w1. subst K. cbv beta.
    do 3 (mlift; [|by do 2 eexists; split; [|left]]).
    cbv zeta. mcall.
    match goal with |- context [match ?err with Some _ => _ | None => _ end] =>
      destruct err end; mstep.
    { do 2 eexists. split; [reflexivity|]. right; left. by repeat eexists. }
    mcall.
    match goal with |- context [match ?err with Some _ => _ | None => _ end] =>
      destruct err end; mstep.
    { do 2 eexists. split; [reflexivity|]. right; right; left. simpl.
      rewrite <- app_assoc. by repeat eexists. }
    mcall.
    match goal with |- context [match ?err with Some _ => _ | None => _ end ≫= _] =>
      destruct err end; mstep.
    { do 2 eexists. split; [reflexivity|]. right; right; right; left. simpl.
      rewrite <- !app_assoc. repeat eexists. by left. }
    match goal with |- context [match ID ?read with Some _ => _ | None => _ end] =>
      destruct (ID read) as [readID|] eqn:HID end.
    - mstep.
      match goal with |- context [resourceArmHealthcareServiceRead _ _ _ _ _ _ ?W] =>
        destruct (read_emits W) as (evs & Ht & Hevs);
        destruct (resourceArmHealthcareServiceRead client parseAzureResourceID
                    NormalizeLocation flattenTags flattenHealthcareAccessPolicies
                    schemaCheck W) as [out w']
      end.
      exists out, w'. split; [done|]. do 4 right.
      simpl in Ht. rewrite <- !app_assoc in Ht. simpl in Ht.
      repeat eexists; [exact Ht|exact HID|exact Hevs].
    - do 2 eexists. split; [reflexivity|]. right; right; right; left. simpl.
      rewrite <- !app_assoc. repeat eexists. by right. }
  clearbody K.
  destruct (requireResourcesToBeImported && schema.IsNewResource (data w)).
  - mstep. mcall. mstep.
    match goal with |- context [match ?err with Some _ => _ | None => _ end ≫= _] =>
      destruct err as [err|] end.
    + destruct (negb _); mstep.
      { do 2 eexists. eexists [_]. split; [reflexivity|]. split; [|by left]. done. }
      finish_precheck.
    + mstep. finish_precheck.
  - mstep. destruct (HK tt w) as (out & w' & Hrun & Hshape).
    exists out, w', []. rewrite app_nil_r. by repeat split.
Qed.

(** *** Events in a list *)

Lemma forallb_impl {A} (f g : A → bool) (l : list A) :
  (∀ x, f x = true → g x = true) → forallb f l = true → forallb g l = true.
Proof.
  intros Hfg. induction l as [|x l IH]; simpl; [done|].
  intros [Hx Hl]%andb_true_iff. by rewrite (Hfg x Hx), IH.
Qed.

Lemma forallb_elem {A} (f : A → bool) (l : list A) (x : A) :
  forallb f l = true → x ∈ l → f x = true.
Proof.
  intros Hl Hx. apply list_elem_of_In in Hx.
  by apply (proj1 (forallb_forall f l) Hl).
Qed.

Lemma gets_are_not (f : event Future → bool) (P : list (event Future)) :
  (∀ resGroup name result err, f (EvGet resGroup name result err) = false) →
  forallb is_get P = true → forallb (λ e, negb (f e)) P = true.
Proof.
  intros Hf. apply forallb_impl. intros [] ?; try done. by rewrite Hf.
Qed.

Lemma read_events_are_not (f : event Future → bool) (evs : list (event Future)) :
  (∀ resGroup name result err, f (EvGet resGroup name result err) = false) →
  f (EvSetId "") = false →
  forallb is_read_event evs = true → forallb (λ e, negb (f e)) evs = true.
Proof.
  intros Hf Hclear. apply forallb_impl. intros [] He; try done.
  - by rewrite Hf.
  - simpl in He. apply bool_decide_eq_true in He as ->. by rewrite Hclear.
Qed.

(** The place of the only element of a class in a list. *)
Lemma app_cons_unique {A} (f : A → bool) (l1 l2 pre post : list A) (x y : A) :
  l1 ++ x :: l2 = pre ++ y :: post →
  f y = true →
  forallb (λ e, negb (f e)) l1 = true →
  forallb (λ e, negb (f e)) l2 = true →
  pre = l1 ∧ y = x ∧ post = l2.
Proof.
  intros Heq Hy Hl1 Hl2. revert pre Heq Hl1.
  induction l1 as [|a l1 IH]; intros pre Heq Hl1; simpl in *.
  - destruct pre as [|p pre]; simplify_eq/=; [done|].
    assert (negb (f y) = true) as Hn
      by (apply (forallb_elem _ _ _ Hl2); set_solver).
    by rewrite Hy in Hn.
  - apply andb_true_iff in Hl1 as [Ha Hl1].
    destruct pre as [|p pre]; simplify_eq/=.
    + by rewrite Hy in Ha.
    + by destruct (IH pre) as (-> & -> & ->).
Qed.

Lemma no_element_of_class {A} (f : A → bool) (l pre post : list A) (y : A) :
  l = pre ++ y :: post → f y = true → forallb (λ e, negb (f e)) l = true → False.
Proof.
  intros -> Hy Hl.
  assert (negb (f y) = true) as Hn by (apply (forallb_elem _ _ _ Hl); set_solver).
  by rewrite Hy in Hn.
Qed.

Ltac no_such :=
  rewrite ?forallb_app; simpl; rewrite ?andb_true_r;
  repeat (apply andb_true_iff; split);
  first [ by apply gets_are_not | by apply read_events_are_not | done ].

Ltac absurd_event f :=
  exfalso;
  match goal with
  | Hin : _ ∈ ?evs |- _ =>
      assert (forallb (λ e, negb (f e)) evs = true) as Hall by no_such;
      pose proof (forallb_elem _ _ _ Hall Hin) as Habs; simpl in Habs; done
  | Heq : ?evs = _ ++ _ :: _ |- _ =>
      eapply (no_element_of_class f _ _ _ _ Heq);
        [first [done | by apply bool_decide_eq_true]|no_such]
  end.

(** C5. In every run of Create/Update, a non-empty identifier is stored
    only right after the submit succeeded, the wait on its handle succeeded
    and the fetch that follows succeeded and returned that identifier. When
    the submit fails, the wait fails, or the fetch after the wait fails or
    brings a nil identifier, the run returns an error, the resource data is
    as before and the identifier has not been written. *)
Theorem identifier_set_only_after_confirmation (w : world R Future) :
  ∃ out w' evs,
    ServiceCreateUpdate w = (out, w') ∧
    trace w' = trace w ++ evs ∧
    id_set_after_confirmation evs ∧
    (∀ resGroup name body future err,
        EvCreateOrUpdate resGroup name body future (Some err) ∈ evs →
        fails_without_id (data w) evs out w') ∧
    (∀ future err,
        EvWait future (Some err) ∈ evs →
        fails_without_id (data w) evs out w') ∧
    (∀ pre future resGroup name read err post,
        evs = pre ++ EvWait future None :: EvGet resGroup name read err :: post →
        err ≠ None ∨ ID read = None →
        fails_without_id (data w) evs out w').
Proof.
  destruct (create_update_runs w) as (out & w' & P & Hrun & HP & Hshape).
  exists out, w'.
  destruct Hshape as
    [(Ht & Hd)
    |[(resGroup & name & body & future & err & e & Ht & Hd & ->)
    |[(resGroup & name & body & future & err & e & Ht & Hd & ->)
    |[(resGroup & name & body & future & read & err & e & Ht & Herr & Hd & ->)
    |(resGroup & name & body & future & read & id & evs & Ht & HID & Hevs)]]]];
    rewrite <- ?app_assoc in Ht;
    (eexists; split; [exact Hrun|]; split; [exact Ht|]).
  - split; [|split; [|split]].
    + intros pre id post Heq Hne. absurd_event (@sets_nonempty_id Future).
    + intros. absurd_event (@is_failed_submit Future).
    + intros. absurd_event (@is_failed_wait Future).
    + intros pre future resGroup name read err post Heq _.
      exfalso. eapply (no_element_of_class is_wait _ _ _ _ Heq); [done|no_such].
  - assert (fails_without_id (data w)
              (P ++ [EvCreateOrUpdate resGroup name body future (Some err)])
              (Return (Some e)) w') as Hfails.
    { split; [by eexists|]. split; [done|].
      intros id Hin. absurd_event (@sets_id Future). }
    split; [|by split; [|split]].
    intros pre id post Heq Hne. exfalso.
    eapply (no_element_of_class sets_nonempty_id _ _ _ _ Heq);
      [by apply bool_decide_eq_true|no_such].
  - assert (fails_without_id (data w)
              (P ++ [EvCreateOrUpdate resGroup name body future None;
                     EvWait future (Some err)])
              (Return (Some e)) w') as Hfails.
    { split; [by eexists|]. split; [done|].
      intros id Hin. absurd_event (@sets_id Future). }
    split; [|by split; [|split]].
    intros pre id post Heq Hne. exfalso.
    eapply (no_element_of_class sets_nonempty_id _ _ _ _ Heq);
      [by apply bool_decide_eq_true|no_such].
  - assert (fails_without_id (data w)
              (P ++ [EvCreateOrUpdate resGroup name body future None;
                     EvWait future None; EvGet resGroup name read err])
              (Return (Some e)) w') as Hfails.
    { split; [by eexists|]. split; [done|].
      intros id Hin. absurd_event (@sets_id Future). }
    split; [|by split; [|split]].
    intros pre id post Heq Hne. exfalso.
    eapply (no_element_of_class sets_nonempty_id _ _ _ _ Heq);
      [by apply bool_decide_eq_true|no_such].
  - split; [|split; [|split]].
    + intros pre id' post Heq Hne.
      change (P ++ [EvCreateOrUpdate resGroup name body future None;
                    EvWait future None; EvGet resGroup name read None;
                    EvSetId id] ++ evs)
        with (P ++ [EvCreateOrUpdate resGroup name body future None;
                    EvWait future None; EvGet resGroup name read None]
                ++ EvSetId id :: evs) in Heq.
      rewrite app_assoc in Heq.
      apply (app_cons_unique sets_nonempty_id) in Heq as (-> & [= ->] & ->);
        [|by apply bool_decide_eq_true|no_such|no_such].
      by exists P, resGroup, name, body, future, read.
    + intros. absurd_event (@is_failed_submit Future).
    + intros. absurd_event (@is_failed_wait Future).
    + intros pre future' resGroup' name' read' err' post Heq Herr. exfalso.
      change (P ++ [EvCreateOrUpdate resGroup name body future None;
                    EvWait future None; EvGet resGroup name read None;
                    EvSetId id] ++ evs)
        with (P ++ [EvCreateOrUpdate resGroup name body future None]
                ++ EvWait future None
                   :: ([EvGet resGroup name read None; EvSetId id] ++ evs)) in Heq.
      rewrite app_assoc in Heq.
      apply (app_cons_unique is_wait) in Heq as (_ & _ & Hpost);
        [|done|no_such|no_such].
      simplify_eq/=. destruct Herr as [Herr|Herr]; [done|congruence].
Qed.

(** *** Read after a successful Get *)

Lemma step_d_Set {B} (key : string) (v : value) (k : option error → @handler R Future B)
    (w : world R Future) :
  (d_Set schemaCheck key v ≫= k) w
  = k (schemaCheck key v)
      {| data := (schema.Set_ schemaCheck (data w) key v).1;
         remote := remote w; trace := trace w |}.
Proof.
  rewrite handler_bind_eq. unfold d_Set, schema.Set_. by destruct (schemaCheck key v).
Qed.

Lemma only_sets_fields_bind {A B} (m : @handler R Future A) (k : A → @handler R Future B) :
  only_sets_fields m → (∀ a, only_sets_fields (k a)) → only_sets_fields (m ≫= k).
Proof.
  intros Hm Hk w. rewrite handler_bind_eq.
  destruct (Hm w) as (Hp & Ht & Hr & Hi & Hn).
  destruct (m w) as [[a|e|msg] w1]; simpl in *.
  - destruct (Hk a w1) as (Hp' & Ht' & Hr' & Hi' & Hn').
    repeat split; [done|congruence..].
  - by repeat split.
  - by destruct (Hp msg).
Qed.

Lemma only_sets_fields_ret {A} (a : A) : only_sets_fields (mret a : @handler R Future A).
Proof. by intros w. Qed.

Lemma only_sets_fields_return {A} (e : option error) :
  only_sets_fields (return_ e : @handler R Future A).
Proof. by intros w. Qed.

Lemma only_sets_fields_d_Set (key : string) (v : value) :
  only_sets_fields (d_Set schemaCheck key v : @handler R Future _).
Proof.
  intros w. unfold d_Set, schema.Set_. by destruct (schemaCheck key v).
Qed.

Lemma keeps_field_bind {A B} (key : string) (m : @handler R Future A)
    (k : A → @handler R Future B) :
  keeps_field key m → (∀ a, keeps_field key (k a)) → keeps_field key (m ≫= k).
Proof.
  intros Hm Hk w. rewrite handler_bind_eq. specialize (Hm w).
  destruct (m w) as [[a|e|msg] w1]; simpl in *; [|done..].
  by rewrite (Hk a w1).
Qed.

Lemma keeps_field_ret {A} (key : string) (a : A) :
  keeps_field key (mret a : @handler R Future A).
Proof. by intros w. Qed.

Lemma keeps_field_return {A} (key : string) (e : option error) :
  keeps_field key (return_ e : @handler R Future A).
Proof. by intros w. Qed.

Lemma keeps_field_d_Set (key key' : string) (v : value) :
  key' ≠ key → keeps_field key (d_Set schemaCheck key' v : @handler R Future _).
Proof.
  intros Hne w. unfold d_Set, schema.Set_, schema.Get, index.
  destruct (schemaCheck key' v); simpl; [done|]. by rewrite lookup_insert_ne.
Qed.

Lemma keeps_field_d_Set_bind {B} (key key' : string) (v : value)
    (k : option error → @handler R Future B) :
  key' ≠ key →
  keeps_field key (k (schemaCheck key' v)) →
  keeps_field key (d_Set schemaCheck key' v ≫= k).
Proof.
  intros Hne Hk w. rewrite step_d_Set, Hk. simpl.
  unfold schema.Set_, schema.Get, index.
  destruct (schemaCheck key' v); simpl; [done|]. by rewrite lookup_insert_ne.
Qed.

Lemma keeps_field_assoc {A B C} (key : string) (m : @handler R Future A)
    (k1 : A → @handler R Future B) (k2 : B → @handler R Future C) :
  keeps_field key (m ≫= λ a, k1 a ≫= k2) → keeps_field key ((m ≫= k1) ≫= k2).
Proof. intros Hm w. rewrite step_assoc. apply Hm. Qed.

Lemma keeps_field_return_bind {A B} (key : string) (e : option error)
    (k : A → @handler R Future B) :
  keeps_field key (return_ e ≫= k).
Proof. by intros w. Qed.

Ltac solve_only_sets_fields :=
  repeat first
    [ apply only_sets_fields_bind
    | apply only_sets_fields_ret
    | apply only_sets_fields_return
    | apply only_sets_fields_d_Set
    | intros ?
    | case_match ].

Ltac solve_keeps_field :=
  repeat first
    [ apply keeps_field_bind
    | apply keeps_field_ret
    | apply keeps_field_return
    | apply keeps_field_d_Set; done
    | intros ?
    | case_match ].

Lemma always_next_ret {A} (a : A) : always_next (mret a : @handler R Future A).
Proof. intros w. by exists a. Qed.

Lemma always_next_d_Set (key : string) (v : value) :
  always_next (d_Set schemaCheck key v : @handler R Future _).
Proof.
  intros w. unfold d_Set, schema.Set_. destruct (schemaCheck key v); by eexists.
Qed.

Lemma always_next_bind {A B} (m : @handler R Future A) (k : A → @handler R Future B) :
  always_next m → (∀ a, always_next (k a)) → always_next (m ≫= k).
Proof.
  intros Hm Hk w. rewrite handler_bind_eq. destruct (Hm w) as (a & Ha).
  destruct (m w) as [[a'|e|msg] w1]; simplify_eq/=. apply Hk.
Qed.

Ltac solve_always_next :=
  solve
    [ repeat first
        [ apply always_next_bind
        | apply always_next_ret
        | apply always_next_d_Set
        | intros ?
        | match goal with |- always_next (match ?x with _ => _ end) => destruct x end ] ].

Lemma results_next_bind {A B} (Q : step B → Prop) (m : @handler R Future A)
    (k : A → @handler R Future B) :
  always_next m → (∀ a, results Q (k a)) → results Q (m ≫= k).
Proof.
  intros Hm Hk w. rewrite handler_bind_eq. destruct (Hm w) as (a & Ha).
  destruct (m w) as [[a'|e|msg] w1]; simplify_eq/=. apply Hk.
Qed.

Lemma results_d_Set_bind {B} (Q : step B → Prop) (key : string) (v : value)
    (k : option error → @handler R Future B) :
  results Q (k (schemaCheck key v)) → results Q (d_Set schemaCheck key v ≫= k).
Proof. intros Hk w. rewrite step_d_Set. apply Hk. Qed.

Lemma results_ret_bind {A B} (Q : step B → Prop) (a : A) (k : A → @handler R Future B) :
  results Q (k a) → results Q (mret a ≫= k).
Proof. intros Hk w. apply Hk. Qed.

Lemma results_return_bind {A B} (Q : step B → Prop) (e : option error)
    (k : A → @handler R Future B) :
  Q (Return e) → results Q (return_ e ≫= k).
Proof. by intros HQ w. Qed.

Lemma results_return {A} (Q : step A → Prop) (e : option error) :
  Q (Return e) → results Q (return_ e : @handler R Future A).
Proof. by intros HQ w. Qed.

Lemma results_assoc {A B C} (Q : step C → Prop) (m : @handler R Future A)
    (k1 : A → @handler R Future B) (k2 : B → @handler R Future C) :
  results Q (m ≫= λ a, k1 a ≫= k2) → results Q ((m ≫= k1) ≫= k2).
Proof. intros Hm w. rewrite step_assoc. apply Hm. Qed.

Ltac solve_results :=
  repeat first
    [ apply results_return_bind; reflexivity
    | apply results_return; reflexivity
    | apply results_d_Set_bind
    | apply results_ret_bind
    | apply results_assoc
    | apply results_next_bind; [solve_always_next | intros ?]
    | match goal with
      | |- results _ (match ?x with _ => _ end ≫= _) => destruct x
      end ].

Ltac keeps_from_here :=
  match goal with
  | |- schema.Get (data (?m ?W).2) ?key = _ =>
      let Hk := fresh "Hk" in
      assert (keeps_field key m) as Hk by solve_keeps_field;
      rewrite (Hk W); clear Hk
  end.

(** Once the Get of Read has succeeded, what is left of Read only writes
    fields. [tail] is that rest of Read; its world is the one the Get
    leaves. *)
Lemma read_after_get (w : world R Future) (id : ResourceID) (r' : R)
    (resp : ServicesDescription) :
  let resourceGroup := ResourceGroup id in
  let name := default "" (Path id !! "services") in
  parseAzureResourceID (schema.Id (data w)) = inl id →
  Get client resourceGroup name (remote w) = (r', (resp, None)) →
  ∃ tail : @handler R Future Empty_set,
    ServiceRead w
    = tail {| data := data w; remote := r';
              trace := trace w ++ [EvGet resourceGroup name resp None] |} ∧
    only_sets_fields tail ∧
    results (λ out, out = Return (read_result schemaCheck resp)) tail ∧
    (schemaCheck "name" (VString name) = None →
     ∀ w0, schema.Get (data (tail w0).2) "name" = VString name) ∧
    (schemaCheck "resource_group_name" (VString resourceGroup) = None →
     ∀ w0, schema.Get (data (tail w0).2) "resource_group_name" = VString resourceGroup) ∧
    (Location resp = None → keeps_field "location" tail) ∧
    (Kind resp = "" → keeps_field "kind" tail) ∧
    (Properties resp = None →
     keeps_field "access_policy_object_ids" tail ∧
     keeps_field "cosmosdb_throughput" tail ∧
     keeps_field "authentication_configuration" tail ∧
     keeps_field "cors_configuration" tail) ∧
    (∀ properties, Properties resp = Some properties →
       (AccessPolicies properties = None →
        keeps_field "access_policy_object_ids" tail) ∧
       (CosmosDbConfiguration properties = None →
        keeps_field "cosmosdb_throughput" tail) ∧
       (is_Some (schemaCheck "authentication_configuration"
                   (VList (authOutput (AuthenticationConfiguration properties)))) →
        keeps_field "cors_configuration" tail ∧ keeps_field "tags" tail)).
Proof.
  intros resourceGroup name Hparse Hget.
  unfold resourceArmHealthcareServiceRead.
  mstep. rewrite Hparse. fold resourceGroup name.
  rewrite step_client_Get, Hget. cbn [fst snd]. cbv beta iota. mstep.
  match goal with |- context [?m {| data := _; remote := _; trace := _ |}] =>
    exists m end.
  unfold flattenAndSetTags.
  split; [reflexivity|].
  split; [solve_only_sets_fields|].
  split; [unfold read_result; cbv zeta; solve_results|].
  split.
  { intros Hcheck w0. rewrite step_d_Set. keeps_from_here.
    unfold schema.Set_. rewrite Hcheck. unfold schema.Get, index. simpl.
    by rewrite lookup_insert_eq. }
  split.
  { intros Hcheck w0. rewrite !step_d_Set. keeps_from_here.
    unfold schema.Set_ at 1. rewrite Hcheck. unfold schema.Get, index. simpl.
    by rewrite lookup_insert_eq. }
  split; [intros ->; solve_keeps_field|].
  split.
  { intros HK. rewrite (bool_decide_eq_false_2 (Kind resp ≠ "")) by naive_solver.
    solve_keeps_field. }
  split; [intros ->; repeat split; solve_keeps_field|].
  intros properties ->. split; [|split].
  - intros ->. solve_keeps_field.
  - intros ->. solve_keeps_field.
  - intros [e He].
    split;
      repeat first
        [ rewrite He
        | progress cbv beta iota
        | apply keeps_field_return_bind
        | apply keeps_field_assoc
        | apply keeps_field_d_Set_bind; [done|]
        | apply keeps_field_bind
        | apply keeps_field_ret
        | apply keeps_field_return
        | apply keeps_field_d_Set; done
        | intros ?
        | case_match ].
Qed.

(** X5. Read always returns: it never panics. It calls the transport at
    most once, with a Get, and the only write of the stored identifier it
    can make is to clear it, after a Get that failed with a not-found
    response. *)
Theorem read_always_returns (w : world R Future) :
  ∃ err w',
    ServiceRead w = (Return err, w') ∧
    ((trace w' = trace w ∧ data w' = data w ∧ remote w' = remote w) ∨
     (∃ resourceGroup name resp gerr,
         trace w' = trace w ++ [EvGet resourceGroup name resp gerr] ∧
         schema.Id (data w') = schema.Id (data w)) ∨
     (∃ resourceGroup name resp gerr,
         trace w' = trace w ++ [EvGet resourceGroup name resp (Some gerr); EvSetId ""] ∧
         utils.ResponseWasNotFound (Response resp) = true ∧
         data w' = schema.SetId (data w) "" ∧
         err = None)).
Proof.
  destruct (parseAzureResourceID (schema.Id (data w))) as [id|perr] eqn:Hparse.
  - destruct (Get client (ResourceGroup id) (default "" (Path id !! "services"))
                (remote w)) as [r' [resp [gerr|]]] eqn:Hget.
    + unfold resourceArmHealthcareServiceRead.
      mstep. rewrite Hparse. rewrite step_client_Get, Hget.
      cbn [fst snd]. cbv beta iota.
      destruct (utils.ResponseWasNotFound (Response resp)) eqn:Hnf.
      * rewrite step_assoc, step_d_SetId. cbv beta. rewrite step_return.
        do 2 eexists. split; [reflexivity|]. right; right. simpl.
        rewrite <- app_assoc. by repeat eexists.
      * rewrite step_return.
        do 2 eexists. split; [reflexivity|]. right; left. by repeat eexists.
    + destruct (read_after_get w id r' resp Hparse Hget)
        as (tail & -> & Hfields & Hres & _).
      match goal with |- context [tail ?W] =>
        destruct (Hfields W) as (_ & Ht & _ & Hid & _); specialize (Hres W);
        destruct (tail W) as [out w']
      end.
      simpl in *. subst out. do 2 eexists. split; [reflexivity|].
      right; left. by repeat eexists.
  - unfold resourceArmHealthcareServiceRead. mstep. rewrite Hparse.
    do 2 eexists. split; [reflexivity|]. by left.
Qed.

(** X6. When the Get of Read succeeds and the field writer accepts them,
    Read stores the name and the resource group it parsed from the
    identifier in [name] and [resource_group_name], and the stored
    identifier stays. *)
Theorem read_stores_name_and_group (w : world R Future) (id : ResourceID) (r' : R)
    (resp : ServicesDescription) :
  let resourceGroup := ResourceGroup id in
  let name := default "" (Path id !! "services") in
  parseAzureResourceID (schema.Id (data w)) = inl id →
  Get client resourceGroup name (remote w) = (r', (resp, None)) →
  schemaCheck "name" (VString name) = None →
  schemaCheck "resource_group_name" (VString resourceGroup) = None →
  schema.Get (data (ServiceRead w).2) "name" = VString name ∧
  schema.Get (data (ServiceRead w).2) "resource_group_name" = VString resourceGroup ∧
  schema.Id (data (ServiceRead w).2) = schema.Id (data w).
Proof.
  intros resourceGroup name Hparse Hget Hname Hgroup.
  destruct (read_after_get w id r' resp Hparse Hget)
    as (tail & -> & Hfields & _ & Hn & Hg & _).
  split; [by apply Hn|]. split; [by apply Hg|].
  match goal with |- context [tail ?W] =>
    by destruct (Hfields W) as (_ & _ & _ & -> & _) end.
Qed.

(** X7. Read does not write the field of a part the response lacks: a nil
    location leaves [location], an empty kind leaves [kind], nil properties
    leave the four fields taken from the properties, and nil access policies
    or a nil Cosmos DB configuration leave their field. *)
Theorem read_leaves_fields_of_absent_parts (w : world R Future) (id : ResourceID)
    (r' : R) (resp : ServicesDescription) :
  let resourceGroup := ResourceGroup id in
  let name := default "" (Path id !! "services") in
  let d' := data (ServiceRead w).2 in
  parseAzureResourceID (schema.Id (data w)) = inl id →
  Get client resourceGroup name (remote w) = (r', (resp, None)) →
  (Location resp = None → schema.Get d' "location" = schema.Get (data w) "location") ∧
  (Kind resp = "" → schema.Get d' "kind" = schema.Get (data w) "kind") ∧
  (Properties resp = None →
   schema.Get d' "access_policy_object_ids"
     = schema.Get (data w) "access_policy_object_ids" ∧
   schema.Get d' "cosmosdb_throughput" = schema.Get (data w) "cosmosdb_throughput" ∧
   schema.Get d' "authentication_configuration"
     = schema.Get (data w) "authentication_configuration" ∧
   schema.Get d' "cors_configuration" = schema.Get (data w) "cors_configuration") ∧
  (∀ properties, Properties resp = Some properties →
     (AccessPolicies properties = None →
      schema.Get d' "access_policy_object_ids"
        = schema.Get (data w) "access_policy_object_ids") ∧
     (CosmosDbConfiguration properties = None →
      schema.Get d' "cosmosdb_throughput" = schema.Get (data w) "cosmosdb_throughput")).
Proof.
  intros resourceGroup name d' Hparse Hget. subst d'.
  destruct (read_after_get w id r' resp Hparse Hget)
    as (tail & -> & _ & _ & _ & _ & Hl & Hk & Hp & Hsome).
  split; [intros H; by rewrite (Hl H)|].
  split; [intros H; by rewrite (Hk H)|].
  split.
  - intros H. destruct (Hp H) as (H1 & H2 & H3 & H4).
    by rewrite H1, H2, H3, H4.
  - intros properties Hprop. destruct (Hsome properties Hprop) as (Ha & Hc & _).
    split; intros H; [by rewrite (Ha H)|by rewrite (Hc H)].
Qed.

(** X8. After a successful Get, Read fails only when the field writer
    rejects the authentication list or the CORS list; what the writer says
    about any other field is dropped. When the authentication list is
    rejected, [cors_configuration] and [tags] are not written. *)
Theorem read_fails_only_on_block_lists (w : world R Future) (id : ResourceID)
    (r' : R) (resp : ServicesDescription) :
  let resourceGroup := ResourceGroup id in
  let name := default "" (Path id !! "services") in
  parseAzureResourceID (schema.Id (data w)) = inl id →
  Get client resourceGroup name (remote w) = (r', (resp, None)) →
  (ServiceRead w).1 = Return (read_result schemaCheck resp) ∧
  (∀ properties, Properties resp = Some properties →
     is_Some (schemaCheck "authentication_configuration"
                (VList (authOutput (AuthenticationConfiguration properties)))) →
     schema.Get (data (ServiceRead w).2) "cors_configuration"
       = schema.Get (data w) "cors_configuration" ∧
     schema.Get (data (ServiceRead w).2) "tags" = schema.Get (data w) "tags").
Proof.
  intros resourceGroup name Hparse Hget.
  destruct (read_after_get w id r' resp Hparse Hget)
    as (tail & -> & _ & Hres & _ & _ & _ & _ & _ & Hsome).
  split; [apply Hres|].
  intros properties Hprop Hrej.
  destruct (Hsome properties Hprop) as (_ & _ & Hkeep).
  destruct (Hkeep Hrej) as (Hc & Ht). by rewrite Hc, Ht.
Qed.

(** *** Delete *)

Lemma step_client_Delete {B} (resourceGroup name : string)
    (k : Future * option error → @handler R Future B) (w : world R Future) :
  (client_Delete client resourceGroup name ≫= k) w
  = k (Delete client resourceGroup name (remote w)).2
      {| data := data w; remote := (Delete client resourceGroup name (remote w)).1;
         trace := trace w ++ [EvDelete resourceGroup name
                                (Delete client resourceGroup name (remote w)).2.1
                                (Delete client resourceGroup name (remote w)).2.2] |}.
Proof.
  rewrite handler_bind_eq. unfold client_Delete.
  by destruct (Delete client resourceGroup name (remote w)) as [r' [future err]].
Qed.

Lemma delete_run (w : world R Future) (id : ResourceID) (r1 r2 : R) (future : Future)
    (derr werr : option error) :
  let resGroup := ResourceGroup id in
  let name := default "" (Path id !! "services") in
  parseAzureResourceID (schema.Id (data w)) = inl id →
  Delete client resGroup name (remote w) = (r1, (future, derr)) →
  WaitForCompletionRef client future r1 = (r2, werr) →
  ServiceDelete w
  = match derr with
    | Some e =>
        (Return (Some (Errorf
           "Error deleting Healthcare Service %q (Resource Group %q): %+v"
           [ArgString name; ArgString resGroup; ArgError e])),
         {| data := data w; remote := r1;
            trace := trace w ++ [EvDelete resGroup name future (Some e)] |})
    | None =>
        (Return
           match werr with
           | Some e =>
               Some (Errorf
                 "Error waiting for the deleting Healthcare Service %q (Resource Group %q): %+v"
                 [ArgString name; ArgString resGroup; ArgError e])
           | None => None
           end,
         {| data := data w; remote := r2;
            trace := trace w ++ [EvDelete resGroup name future None;
                                 EvWait future werr] |})
    end.
Proof.
  intros resGroup name Hparse Hdel Hwait.
  unfold resourceArmHealthcareServiceDelete.
  mstep. rewrite Hparse. fold resGroup name.
  rewrite step_client_Delete, Hdel. cbn [fst snd]. cbv beta iota.
  destruct derr as [e|]; mstep; [done|].
  rewrite step_future_WaitForCompletionRef. cbn [remote]. rewrite Hwait.
  cbn [fst snd data trace]. rewrite <- app_assoc.
  destruct werr as [e|]; by mstep.
Qed.

(** X9. Delete makes at most two calls of the transport: the submit and,
    only when the submit raised no error, the wait on the handle the submit
    returned. It returns nil exactly when both succeeded, and an error in
    every other case, the unparsable identifier included. *)
Theorem delete_waits_only_after_submit (w : world R Future) :
  ∃ err w' evs,
    ServiceDelete w = (Return err, w') ∧
    trace w' = trace w ++ evs ∧
    ((evs = [] ∧ is_Some err) ∨
     (∃ resGroup name future e,
         evs = [EvDelete resGroup name future (Some e)] ∧ is_Some err) ∨
     (∃ resGroup name future werr,
         evs = [EvDelete resGroup name future None; EvWait future werr] ∧
         (err = None ↔ werr = None))).
Proof.
  destruct (parseAzureResourceID (schema.Id (data w))) as [id|perr] eqn:Hparse.
  - destruct (Delete client (ResourceGroup id) (default "" (Path id !! "services"))
                (remote w)) as [r1 [future derr]] eqn:Hdel.
    destruct (WaitForCompletionRef client future r1) as [r2 werr] eqn:Hwait.
    rewrite (delete_run w id r1 r2 future derr werr Hparse Hdel Hwait).
    destruct derr as [e|].
    + do 3 eexists. split; [reflexivity|]. split; [reflexivity|].
      right; left. by repeat eexists.
    + do 3 eexists. split; [reflexivity|]. split; [reflexivity|].
      right; right. repeat eexists; by destruct werr.
  - unfold resourceArmHealthcareServiceDelete. mstep. rewrite Hparse.
    do 2 eexists. exists []. split; [reflexivity|]. rewrite app_nil_r.
    split; [done|]. left. by split.
Qed.

(** X10. An identifier that parses but has no [services] segment is not
    refused: Read and Delete go on and call the transport with the empty
    name. *)
Theorem missing_services_segment_gives_empty_name (w : world R Future)
    (id : ResourceID) :
  parseAzureResourceID (schema.Id (data w)) = inl id →
  Path id !! "services" = None →
  (∃ resp gerr rest,
      trace (ServiceRead w).2
      = trace w ++ EvGet (ResourceGroup id) "" resp gerr :: rest) ∧
  (∃ future derr rest,
      trace (ServiceDelete w).2
      = trace w ++ EvDelete (ResourceGroup id) "" future derr :: rest).
Proof.
  intros Hparse Hpath. split.
  - destruct (Get client (ResourceGroup id) (default "" (Path id !! "services"))
                (remote w)) as [r' [resp [gerr|]]] eqn:Hget.
    + unfold resourceArmHealthcareServiceRead.
      mstep. rewrite Hparse. rewrite step_client_Get, Hget.
      cbn [fst snd]. cbv beta iota. rewrite Hpath. cbn [default].
      destruct (utils.ResponseWasNotFound (Response resp)).
      * rewrite step_assoc, step_d_SetId. cbv beta. rewrite step_return.
        cbn [snd trace]. rewrite <- app_assoc. by repeat eexists.
      * rewrite step_return. by repeat eexists.
    + destruct (read_after_get w id r' resp Hparse Hget) as (tail & -> & Hfields & _).
      match goal with |- context [tail ?W] =>
        destruct (Hfields W) as (_ & -> & _) end.
      rewrite Hpath. by repeat eexists.
  - destruct (Delete client (ResourceGroup id) (default "" (Path id !! "services"))
                (remote w)) as [r1 [future derr]] eqn:Hdel.
    destruct (WaitForCompletionRef client future r1) as [r2 werr] eqn:Hwait.
    rewrite (delete_run w id r1 r2 future derr werr Hparse Hdel Hwait).
    rewrite Hpath. destruct derr; by repeat eexists.
Qed.

(** *** Create/Update: the existence check and the submit *)

(** X11. On a new resource with import protection on, when the preliminary
    Get fails with an error that is not a not-found, Create returns the error
    of the existence check; the Get is its only call and the resource data
    is left as it was, whatever identifier the Get handed back. *)
Theorem create_stops_when_existence_check_fails (w : world R Future)
    (name resGroup : string) (r' : R) (existing : ServicesDescription) (err : error) :
  requireResourcesToBeImported = true →
  schema.IsNewResource (data w) = true →
  prepared_arguments (data w) = Some (name, resGroup) →
  Get client resGroup name (remote w) = (r', (existing, Some err)) →
  utils.ResponseWasNotFound (Response existing) = false →
  ServiceCreateUpdate w
  = (Return (Some (Errorf
       "Error checking for presence of existing Healthcare Service %q (Resource Group %q): %s"
       [ArgString name; ArgString resGroup; ArgError err])),
     {| data := data w; remote := r';
        trace := trace w ++ [EvGet resGroup name existing (Some err)] |}).
Proof.
  intros Himport Hnew Hargs Hget Hnf.
  destruct (prepared_arguments_inv _ _ _ Hargs)
    as (location & tags & kind & cdba & Hn & Hg & Hl & Ht & Hk & Hc).
  unfold resourceArmHealthcareServiceCreateUpdate.
  mstep. rewrite Hn, Hg, Hl, Ht, Hk, Hc, Himport, Hnew.
  do 6 (rewrite step_lift; cbn [as_string as_map as_int fmap res_fmap]; cbv beta iota).
  cbn [andb]. cbv beta iota.
  rewrite step_assoc, step_client_Get, Hget. cbn [fst snd]. cbv beta iota.
  rewrite Hnf. cbn [negb]. cbv beta iota.
  by rewrite !step_assoc, step_return.
Qed.

Lemma emits_weaken {A} (P Q : event Future → bool) (m : @handler R Future A) :
  (∀ e, P e = true → Q e = true) → emits P m → emits Q m.
Proof.
  intros HPQ Hm w. destruct (Hm w) as (evs & Ht & HP).
  exists evs. split; [done|]. by apply (forallb_impl P).
Qed.

Lemma emits_lift {A} (P : event Future → bool) (r : res A) :
  emits P (lift r : @handler R Future A).
Proof. apply emits_nothing. intros w. unfold lift. by destruct r. Qed.

Lemma emits_lift_bind {A B} (P : event Future → bool) (r : res A)
    (k : A → @handler R Future B) :
  (∀ a, r = Ok a → emits P (k a)) → emits P (lift r ≫= k).
Proof.
  intros Hk w. rewrite step_lift. destruct r as [a|msg].
  - by apply Hk.
  - exists []. by rewrite app_nil_r.
Qed.

Lemma emits_client_CreateOrUpdate (P : event Future → bool) (resourceGroup name : string)
    (body : ServicesDescription) :
  (∀ future err, P (EvCreateOrUpdate resourceGroup name body future err) = true) →
  emits P (client_CreateOrUpdate client resourceGroup name body).
Proof.
  intros HP w. unfold client_CreateOrUpdate.
  destruct (CreateOrUpdate client resourceGroup name body (remote w))
    as [r' [future err]]. simpl.
  eexists [_]. split; [done|]. simpl. by rewrite HP.
Qed.

Lemma emits_future_WaitForCompletionRef (P : event Future → bool) (future : Future) :
  (∀ err, P (EvWait future err) = true) →
  emits P (future_WaitForCompletionRef client future).
Proof.
  intros HP w. unfold future_WaitForCompletionRef.
  destruct (WaitForCompletionRef client future (remote w)) as [r' err]. simpl.
  eexists [_]. split; [done|]. simpl. by rewrite HP.
Qed.

Ltac solve_emits :=
  repeat first
    [ apply (emits_weaken is_read_event); [by intros []|apply read_emits]
    | apply emits_lift_bind; intros ? ?
    | apply emits_bind
    | apply emits_ret
    | apply emits_return
    | apply emits_d_Set
    | apply emits_d_
    | apply emits_lift
    | apply emits_client_Get; done
    | apply emits_future_WaitForCompletionRef; done
    | apply emits_d_SetId; done
    | intros ?
    | case_match ].

(** X13. No request that Create/Update submits has a nil pointer where the
    resource fills one: the location, the properties and, within them, the
    access policies, the Cosmos DB configuration, the CORS configuration and
    the authentication configuration are all non-nil, whatever the
    configuration holds. *)
Theorem submitted_bodies_are_well_formed (w : world R Future) :
  ∃ evs,
    trace (ServiceCreateUpdate w).2 = trace w ++ evs ∧
    forallb submits_well_formed evs = true.
Proof.
  revert w. change (emits submits_well_formed ServiceCreateUpdate).
  unfold resourceArmHealthcareServiceCreateUpdate.
  apply emits_bind; [apply emits_d_|]. intros d.
  do 6 (apply emits_lift_bind; intros ? _).
  apply emits_bind; [solve_emits|]. intros _.
  apply emits_lift_bind; intros ap Hap.
  apply emits_lift_bind; intros cors Hcors.
  apply emits_lift_bind; intros auth Hauth.
  cbv zeta. apply emits_bind.
  - apply emits_client_CreateOrUpdate. intros future err.
    destruct (expand_results_not_nil d) as (Hx & Hy & Hz).
    destruct (Hx _ Hap) as (? & ->). destruct (Hy _ Hcors) as (? & -> & _).
    destruct (Hz _ Hauth) as (? & -> & _).
    unfold submits_well_formed, well_formed_body, utils.String. simpl. done.
  - solve_emits.
Qed.

(** X12. When the configuration is well typed, Create/Update submits
    without a preliminary Get if import protection is off or the resource is
    not new, and right after the preliminary Get if that Get succeeds or
    reports not-found and hands back no identifier. The submitted body holds
    the normalised location, the expanded tags, the kind, the throughput
    converted to 32 bits and the three expanded sub-structs. *)
Theorem create_submits_after_check (w : world R Future)
    (name resGroup location kind : string) (tags : gmap string value) (cdba : Z)
    (accessPolicies : option (slice ServiceAccessPolicyEntry))
    (corsConfiguration : option ServiceCorsConfigurationInfo)
    (authenticationConfiguration : option ServiceAuthenticationConfigurationInfo) :
  let body :=
    {| Response := None;
       ID := None;
       Location := Some (NormalizeLocation location);
       Tags := expandTags tags;
       Kind := kind;
       Properties := Some
         {| AccessPolicies := accessPolicies;
            CosmosDbConfiguration := Some {| OfferThroughput := Some (int32 cdba) |};
            CorsConfiguration := corsConfiguration;
            AuthenticationConfiguration := authenticationConfiguration |} |} in
  schema.Get (data w) "name" = VString name →
  schema.Get (data w) "resource_group_name" = VString resGroup →
  schema.Get (data w) "location" = VString location →
  schema.Get (data w) "tags" = VMap tags →
  schema.Get (data w) "kind" = VString kind →
  schema.Get (data w) "cosmosdb_throughput" = VInt cdba →
  expandAzureRMhealthcareapisAccessPolicyEntries (data w) = Ok accessPolicies →
  expandAzureRMhealthcareapisCorsConfiguration (data w) = Ok corsConfiguration →
  expandAzureRMhealthcareapisAuthentication (data w) = Ok authenticationConfiguration →
  (requireResourcesToBeImported && schema.IsNewResource (data w) = false →
   ∃ future err rest,
     trace (ServiceCreateUpdate w).2
     = trace w ++ EvCreateOrUpdate resGroup name body future err :: rest) ∧
  (requireResourcesToBeImported && schema.IsNewResource (data w) = true →
   ∀ r1 existing gerr,
     Get client resGroup name (remote w) = (r1, (existing, gerr)) →
     gerr = None ∨ utils.ResponseWasNotFound (Response existing) = true →
     ID existing = None ∨ ID existing = Some "" →
     ∃ future err rest,
       trace (ServiceCreateUpdate w).2
       = trace w ++ EvGet resGroup name existing gerr
                 :: EvCreateOrUpdate resGroup name body future err :: rest).
Proof.
  intros body Hn Hg Hl Ht Hk Hc Hap Hcors Hauth.
  unfold resourceArmHealthcareServiceCreateUpdate.
  mstep. rewrite Hn, Hg, Hl, Ht, Hk, Hc.
  do 6 (rewrite step_lift; cbn [as_string as_map as_int fmap res_fmap]; cbv beta iota).
  match goal with |- context [mbind ?k _ w] => set (K := k) end.
  assert (∀ W, data W = data w →
               ∃ future err rest,
                 trace (K tt W).2
                 = trace W ++ EvCreateOrUpdate resGroup name body future err :: rest)
    as HK.
  { intros W HW. subst K. cbv beta. rewrite Hap, Hcors, Hauth.
    do 3 (rewrite step_lift; cbv beta iota). cbv zeta.
    rewrite step_client_CreateOrUpdate.
    destruct (CreateOrUpdate client resGroup name _ (remote W)) as [r2 [future err]].
    cbn [fst snd]. cbv beta iota.
    match goal with |- context [(?m ?W').2] =>
      assert (emits (λ _, true) m) as Hrest by solve_emits;
      destruct (Hrest W') as (rest & -> & _)
    end.
    cbn [trace]. rewrite <- app_assoc. by exists future, err, rest. }
  clearbody K. split.
  - intros ->. mstep. by apply HK.
  - intros -> r1 existing gerr Hget Hgerr HID.
    rewrite step_assoc, step_client_Get, Hget. cbn [fst snd]. cbv beta iota.
    assert (∀ W', ((match gerr with
                    | Some err =>
                        if negb (utils.ResponseWasNotFound (Response existing))
                        then return_ (Some (Errorf
                          "Error checking for presence of existing Healthcare Service %q (Resource Group %q): %s"
                          [ArgString name; ArgString resGroup; ArgError err]))
                        else mret ()
                    | None => mret ()
                    end : @handler R Future ()) W') = (Next tt, W')) as Hpass.
    { intros W'. destruct Hgerr as [->|Hnf]; [done|].
      destruct gerr; [|done]. by rewrite Hnf. }
    rewrite step_assoc, handler_bind_eq, Hpass.
    assert (∀ W', ((match ID existing with
                    | Some existingID =>
                        if bool_decide (existingID ≠ "")
                        then return_ (Some (tf.ImportAsExistsError
                                              "azurerm_healthcare_service" existingID))
                        else mret ()
                    | None => mret ()
                    end : @handler R Future ()) W') = (Next tt, W')) as Hpass'.
    { intros W'. by destruct HID as [->| ->]. }
    rewrite handler_bind_eq, Hpass'.
    match goal with |- context [K tt ?W] =>
      destruct (HK W eq_refl) as (future & err & rest & ->) end.
    cbn [trace]. rewrite <- app_assoc. by exists future, err, rest.
Qed.

(** *** The stored identifier at the end of Create/Update *)

Lemma id_after_app (id0 : string) (evs1 evs2 : list (event Future)) :
  id_after id0 (evs1 ++ evs2) = id_after (id_after id0 evs1) evs2.
Proof. apply fold_left_app. Qed.

Lemma id_after_no_write (id0 : string) (evs : list (event Future)) :
  forallb (λ e, negb (sets_id e)) evs = true → id_after id0 evs = id0.
Proof.
  induction evs as [|e evs IH]; simpl; [done|].
  intros [He Hevs]%andb_true_iff. by destruct e; simpl in *; try done; apply IH.
Qed.

Lemma id_after_read_events (id0 : string) (evs : list (event Future)) :
  forallb is_read_event evs = true →
  id_after id0 evs = id0 ∨ (id_after id0 evs = "" ∧ EvSetId "" ∈ evs).
Proof.
  revert id0. induction evs as [|e evs IH]; intros id0; simpl; [by left|].
  intros [He Hevs]%andb_true_iff. destruct e; simpl in *; try done.
  - destruct (IH id0 Hevs) as [?|[? ?]]; [by left|]. right. split; [done|set_solver].
  - apply bool_decide_eq_true in He as ->. right.
    split; [|set_solver]. by destruct (IH "" Hevs) as [?|[? ?]].
Qed.

Lemma tracks_id_bind {A B} (m : @handler R Future A) (k : A → @handler R Future B) :
  tracks_id m → (∀ a, tracks_id (k a)) → tracks_id (m ≫= k).
Proof.
  intros Hm Hk w. rewrite handler_bind_eq.
  destruct (Hm w) as (evs1 & Ht1 & Hi1).
  destruct (m w) as [[a|e|msg] w1]; simpl in *.
  - destruct (Hk a w1) as (evs2 & Ht2 & Hi2).
    exists (evs1 ++ evs2). by rewrite Ht2, Ht1, <- app_assoc, Hi2, Hi1, id_after_app.
  - by exists evs1.
  - by exists evs1.
Qed.

Lemma tracks_id_quiet {A} (m : @handler R Future A) :
  (∀ w, trace (m w).2 = trace w ∧ schema.Id (data (m w).2) = schema.Id (data w)) →
  tracks_id m.
Proof. intros Hm w. destruct (Hm w) as (Ht & Hi). exists []. by rewrite app_nil_r. Qed.

Lemma tracks_id_call {A} (m : @handler R Future A) :
  (∀ w, ∃ e, sets_id e = false ∧ trace (m w).2 = trace w ++ [e] ∧
             schema.Id (data (m w).2) = schema.Id (data w)) →
  tracks_id m.
Proof.
  intros Hm w. destruct (Hm w) as (e & He & Ht & Hi). exists [e].
  split; [done|]. rewrite Hi. by destruct e.
Qed.

Lemma tracks_id_ret {A} (a : A) : tracks_id (mret a : @handler R Future A).
Proof. by apply tracks_id_quiet. Qed.

Lemma tracks_id_return {A} (e : option error) : tracks_id (return_ e : @handler R Future A).
Proof. by apply tracks_id_quiet. Qed.

Lemma tracks_id_d_ : tracks_id (d_ : @handler R Future _).
Proof. by apply tracks_id_quiet. Qed.

Lemma tracks_id_lift {A} (r : res A) : tracks_id (lift r : @handler R Future A).
Proof. apply tracks_id_quiet. intros w. unfold lift. by destruct r. Qed.

Lemma tracks_id_d_Set (key : string) (v : value) :
  tracks_id (d_Set schemaCheck key v : @handler R Future _).
Proof.
  apply tracks_id_quiet. intros w. unfold d_Set, schema.Set_.
  by destruct (schemaCheck key v).
Qed.

Lemma tracks_id_d_SetId (v : string) : tracks_id (d_SetId v : @handler R Future _).
Proof. intros w. by exists [EvSetId v]. Qed.

Lemma tracks_id_client_Get (resourceGroup name : string) :
  tracks_id (client_Get client resourceGroup name).
Proof.
  apply tracks_id_call. intros w. unfold client_Get.
  destruct (Get client resourceGroup name (remote w)) as [r' [result err]].
  by eexists (EvGet _ _ _ _).
Qed.

Lemma tracks_id_client_CreateOrUpdate (resourceGroup name : string)
    (body : ServicesDescription) :
  tracks_id (client_CreateOrUpdate client resourceGroup name body).
Proof.
  apply tracks_id_call. intros w. unfold client_CreateOrUpdate.
  destruct (CreateOrUpdate client resourceGroup name body (remote w))
    as [r' [future err]].
  by eexists (EvCreateOrUpdate _ _ _ _ _).
Qed.

Lemma tracks_id_future_WaitForCompletionRef (future : Future) :
  tracks_id (future_WaitForCompletionRef client future).
Proof.
  apply tracks_id_call. intros w. unfold future_WaitForCompletionRef.
  destruct (WaitForCompletionRef client future (remote w)) as [r' err].
  by eexists (EvWait _ _).
Qed.

Ltac solve_tracks_id :=
  repeat first
    [ apply tracks_id_bind
    | apply tracks_id_ret
    | apply tracks_id_return
    | apply tracks_id_d_
    | apply tracks_id_lift
    | apply tracks_id_d_Set
    | apply tracks_id_d_SetId
    | apply tracks_id_client_Get
    | apply tracks_id_client_CreateOrUpdate
    | apply tracks_id_future_WaitForCompletionRef
    | intros ?
    | case_match ].

Lemma read_tracks_id : tracks_id ServiceRead.
Proof.
  unfold resourceArmHealthcareServiceRead, flattenAndSetTags. solve_tracks_id.
Qed.

Lemma create_update_tracks_id : tracks_id ServiceCreateUpdate.
Proof.
  unfold resourceArmHealthcareServiceCreateUpdate.
  repeat first
    [ apply read_tracks_id
    | apply tracks_id_bind
    | apply tracks_id_ret
    | apply tracks_id_return
    | apply tracks_id_d_
    | apply tracks_id_lift
    | apply tracks_id_d_SetId
    | apply tracks_id_client_Get
    | apply tracks_id_client_CreateOrUpdate
    | apply tracks_id_future_WaitForCompletionRef
    | intros ?
    | case_match ].
Qed.

(** X14. After Create/Update the stored identifier is the one from before
    the run, or the identifier the fetch after the wait returned, or empty;
    it is not the one from before once the run has stored the fetched
    identifier, and it is empty then only because the Read that ends the run
    cleared it. *)
Theorem create_update_final_identifier (w : world R Future) :
  ∃ out w' evs,
    ServiceCreateUpdate w = (out, w') ∧
    trace w' = trace w ++ evs ∧
    ((schema.Id (data w') = schema.Id (data w) ∧ ∀ id, EvSetId id ∉ evs) ∨
     (∃ pre resGroup name body future read id post,
         evs = pre ++ [EvCreateOrUpdate resGroup name body future None;
                       EvWait future None;
                       EvGet resGroup name read None;
                       EvSetId id] ++ post ∧
         ID read = Some id ∧
         (schema.Id (data w') = id ∨
          (schema.Id (data w') = "" ∧ EvSetId "" ∈ post)))).
Proof.
  destruct (create_update_runs w) as (out & w' & P & Hrun & HP & Hshape).
  destruct (create_update_tracks_id w) as (evs' & Ht' & Hid').
  rewrite Hrun in Ht', Hid'. simpl in Ht', Hid'.
  exists out, w', evs'. split; [done|]. split; [done|].
  assert (∀ l, trace w' = (trace w ++ P) ++ l → evs' = P ++ l) as Hevs.
  { intros l Hl. rewrite Ht', <- app_assoc in Hl. by apply app_inv_head in Hl. }
  assert (∀ l, forallb (λ e, negb (@sets_id Future e)) (P ++ l) = true →
               evs' = P ++ l →
               schema.Id (data w') = schema.Id (data w) ∧ ∀ id, EvSetId id ∉ evs')
    as Hnone.
  { intros l Hl ->. split; [by rewrite Hid', id_after_no_write|].
    intros id Hin. by pose proof (forallb_elem _ _ _ Hl Hin). }
  destruct Hshape as
    [(Ht & Hd)
    |[(resGroup & name & body & future & err & e & Ht & Hd & ->)
    |[(resGroup & name & body & future & err & e & Ht & Hd & ->)
    |[(resGroup & name & body & future & read & err & e & Ht & Herr & Hd & ->)
    |(resGroup & name & body & future & read & id & post & Ht & HID & Hpost)]]]].
  - left. apply (Hnone []); [no_such|]. apply Hevs. by rewrite app_nil_r.
  - left. eapply Hnone; [|by apply Hevs]. no_such.
  - left. eapply Hnone; [|by apply Hevs]. no_such.
  - left. eapply Hnone; [|by apply Hevs]. no_such.
  - right. exists P, resGroup, name, body, future, read, id, post.
    split; [by apply Hevs|]. split; [done|].
    rewrite Hid', (Hevs _ Ht), id_after_app, !id_after_app. simpl.
    destruct (id_after_read_events id post Hpost) as [->|[-> Hin]]; [by left|].
    by right.
Qed.

End handler_properties.

(** ** The handler on the sample remote sides *)

(** The empty identifier of [config_minimal] does not parse. *)
Lemma unparsable_id_fails_before_any_call_witness :
  resourceArmHealthcareServiceRead one_service_client parse_service_id same_location
    flatten_no_tags flatten_object_ids accept_all (start config_minimal None)
  = (Return (Some (RemoteError "Cannot parse Azure ID")), start config_minimal None) ∧
  resourceArmHealthcareServiceDelete one_service_client parse_service_id
    (start config_minimal None)
  = (Return (Some (Errorf "Error Parsing Azure Resource ID: %+v"
                     [ArgError (RemoteError "Cannot parse Azure ID")])),
     start config_minimal None).
Proof.
  apply (unparsable_id_fails_before_any_call one_service_client parse_service_id
           same_location flatten_no_tags flatten_object_ids accept_all
           (start config_minimal None) (RemoteError "Cannot parse Azure ID")).
  vm_compute. reflexivity.
Defined.

(** C9, at an identifier that names a resource group and no service: the
    parser accepts it and finds no [services] segment, so it cannot be
    split into a resource group and a name; yet Read calls the transport
    with the empty name, clears the stored identifier on the not-found
    answer and returns nil, and Delete submits a deletion of the empty
    name. *)
Lemma id_without_name_is_not_refused :
  (∃ id, parse_group_only (schema.Id config_group_only) = inl id ∧
         Path id !! "services" = None) ∧
  resourceArmHealthcareServiceRead one_service_client parse_group_only same_location
    flatten_no_tags flatten_object_ids accept_all (start config_group_only None)
  = (Return None,
     {| data := schema.SetId config_group_only "";
        remote := None;
        trace := [EvGet "rg1" "" (no_service 404) (Some (RemoteError "StatusCode=404"));
                  EvSetId ""] |}) ∧
  schema.Id (schema.SetId config_group_only "") ≠ schema.Id config_group_only ∧
  trace (resourceArmHealthcareServiceDelete one_service_client parse_group_only
           (start config_group_only None)).2
  = [EvDelete "rg1" "" tt (Some (RemoteError "StatusCode=404"))].
Proof.
  split; [by eexists|].
  split; [vm_compute; reflexivity|].
  split; [vm_compute; discriminate|].
  vm_compute. reflexivity.
Qed.

(** Read of a service that is gone, and Read through a failing transport. *)
Lemma read_not_found_clears_id_witness :
  resourceArmHealthcareServiceRead one_service_client parse_service_id same_location
    flatten_no_tags flatten_object_ids accept_all (start config_created None)
  = (Return None,
     {| data := schema.SetId config_created "";
        remote := None;
        trace := [EvGet "rg1" "svc1" (no_service 404)
                    (Some (RemoteError "StatusCode=404"));
                  EvSetId ""] |}) ∧
  resourceArmHealthcareServiceRead failing_client parse_service_id same_location
    flatten_no_tags flatten_object_ids accept_all (start config_created tt)
  = (Return (Some (Errorf
       "Error making Read request on Azure Healthcare Service %q (Resource Group %q): %+v"
       [ArgString "svc1"; ArgString "rg1"; ArgError (RemoteError "StatusCode=500")])),
     {| data := config_created;
        remote := tt;
        trace := [EvGet "rg1" "svc1" (no_service 500)
                    (Some (RemoteError "StatusCode=500"))] |}).
Proof.
  split.
  - refine (proj1 (read_not_found_clears_id one_service_client parse_service_id
             same_location flatten_no_tags flatten_object_ids accept_all
             (start config_created None)
             {| ResourceGroup := "rg1"; Path := {["services" := "svc1"]} |}
             None (no_service 404) (RemoteError "StatusCode=404") _ _) _);
      vm_compute; reflexivity.
  - refine (proj2 (read_not_found_clears_id failing_client parse_service_id
             same_location flatten_no_tags flatten_object_ids accept_all
             (start config_created tt)
             {| ResourceGroup := "rg1"; Path := {["services" := "svc1"]} |}
             tt (no_service 500) (RemoteError "StatusCode=500") _ _) _);
      vm_compute; reflexivity.
Defined.

(** C4, at a preliminary Get that hands back an identifier together with an
    error that is not a not-found: import protection is on, the resource is
    new, the Get returns a non-nil, non-empty identifier, and Create returns
    the error of the existence check, not the "already exists" error. *)
Lemma create_existing_but_check_failed :
  schema.IsNewResource config_minimal = true ∧
  (∃ existing err,
      Get garbled_client "rg1" "svc1" tt = (tt, (existing, Some err)) ∧
      ID existing = Some service_id ∧
      service_id ≠ "") ∧
  (resourceArmHealthcareServiceCreateUpdate garbled_client parse_service_id true
     same_location expand_no_tags flatten_no_tags flatten_object_ids accept_all
     (start config_minimal tt)).1
  = Return (Some (Errorf
      "Error checking for presence of existing Healthcare Service %q (Resource Group %q): %s"
      [ArgString "svc1"; ArgString "rg1";
       ArgError (RemoteError "json: cannot unmarshal number into Go struct field")])) ∧
  (resourceArmHealthcareServiceCreateUpdate garbled_client parse_service_id true
     same_location expand_no_tags flatten_no_tags flatten_object_ids accept_all
     (start config_minimal tt)).1
  ≠ Return (Some (tf.ImportAsExistsError "azurerm_healthcare_service" service_id)).
Proof.
  split; [reflexivity|]. split.
  - do 2 eexists. split; [reflexivity|]. split; [reflexivity|]. discriminate.
  - split; [vm_compute; reflexivity|]. vm_compute. discriminate.
Qed.

(** Create of [config_minimal] when the service is already there. *)
Lemma create_refuses_existing_resource_witness :
  resourceArmHealthcareServiceCreateUpdate one_service_client parse_service_id true
    same_location expand_no_tags flatten_no_tags flatten_object_ids accept_all
    (start config_minimal (Some (stored (no_service 200))))
  = (Return (Some (tf.ImportAsExistsError "azurerm_healthcare_service" service_id)),
     {| data := config_minimal;
        remote := Some (stored (no_service 200));
        trace := [EvGet "rg1" "svc1" (stored (no_service 200)) None] |}).
Proof.
  refine (create_refuses_existing_resource one_service_client parse_service_id true
            same_location expand_no_tags flatten_no_tags flatten_object_ids accept_all
            (start config_minimal (Some (stored (no_service 200)))) "svc1" "rg1"
            (Some (stored (no_service 200))) (stored (no_service 200)) None service_id
            _ _ _ _ _ _ _);
    first [ by left | discriminate | vm_compute; reflexivity ].
Defined.

(** Create of [config_minimal] on a remote side without the service. *)
Lemma identifier_set_only_after_confirmation_witness :
  ∃ out w' evs,
    resourceArmHealthcareServiceCreateUpdate one_service_client parse_service_id true
      same_location expand_no_tags flatten_no_tags flatten_object_ids accept_all
      (start config_minimal None) = (out, w') ∧
    trace w' = [] ++ evs ∧
    id_set_after_confirmation evs ∧
    (∀ resGroup name body future err,
        EvCreateOrUpdate resGroup name body future (Some err) ∈ evs →
        fails_without_id config_minimal evs out w') ∧
    (∀ future err,
        EvWait future (Some err) ∈ evs →
        fails_without_id config_minimal evs out w') ∧
    (∀ pre future resGroup name read err post,
        evs = pre ++ EvWait future None :: EvGet resGroup name read err :: post →
        err ≠ None ∨ ID read = None →
        fails_without_id config_minimal evs out w').
Proof.
  exact (identifier_set_only_after_confirmation one_service_client parse_service_id true
           same_location expand_no_tags flatten_no_tags flatten_object_ids accept_all
           (start config_minimal None)).
Defined.

(** Delete run twice on a service that is there: the second run reports the
    not-found error of the transport, and the identifier stays. *)
Lemma delete_leaves_identifier_alone_witness :
  ∃ err1 w1 evs1 err2 w2 evs2,
    resourceArmHealthcareServiceDelete one_service_client parse_service_id
      (start config_created (Some (stored (no_service 200)))) = (Return err1, w1) ∧
    data w1 = config_created ∧
    trace w1 = [] ++ evs1 ∧ forallb is_call evs1 = true ∧
    resourceArmHealthcareServiceDelete one_service_client parse_service_id w1
      = (Return err2, w2) ∧
    data w2 = config_created ∧
    trace w2 = trace w1 ++ evs2 ∧ forallb is_call evs2 = true ∧
    err2 = Some (Errorf
      "Error deleting Healthcare Service %q (Resource Group %q): %+v"
      [ArgString "svc1"; ArgString "rg1"; ArgError (RemoteError "StatusCode=404")]).
Proof.
  destruct (delete_leaves_identifier_alone one_service_client parse_service_id
              (start config_created (Some (stored (no_service 200)))))
    as (err1 & w1 & evs1 & err2 & w2 & evs2 & Hrun1 & Hd1 & Ht1 & Hc1 & Hrun2 & Hd2
        & Ht2 & Hc2 & Hsurface).
  exists err1, w1, evs1, err2, w2, evs2.
  repeat (split; [assumption|]).
  refine (Hsurface {| ResourceGroup := "rg1"; Path := {["services" := "svc1"]} |}
            None tt (RemoteError "StatusCode=404") _ _).
  - vm_compute. reflexivity.
  - vm_compute in Hrun1. injection Hrun1 as _ <-. vm_compute. reflexivity.
Defined.

(** ** The further properties on the sample remote sides *)

(** Read of [config_created] when the service is there. *)
Lemma read_stores_name_and_group_witness :
  schema.Get
    (data (resourceArmHealthcareServiceRead one_service_client parse_service_id
             same_location flatten_no_tags flatten_object_ids accept_all
             (start config_created (Some (stored (no_service 200))))).2) "name"
  = VString "svc1" ∧
  schema.Get
    (data (resourceArmHealthcareServiceRead one_service_client parse_service_id
             same_location flatten_no_tags flatten_object_ids accept_all
             (start config_created (Some (stored (no_service 200))))).2)
    "resource_group_name"
  = VString "rg1" ∧
  schema.Id
    (data (resourceArmHealthcareServiceRead one_service_client parse_service_id
             same_location flatten_no_tags flatten_object_ids accept_all
             (start config_created (Some (stored (no_service 200))))).2)
  = service_id.
Proof.
  refine (read_stores_name_and_group one_service_client parse_service_id same_location
            flatten_no_tags flatten_object_ids accept_all
            (start config_created (Some (stored (no_service 200))))
            {| ResourceGroup := "rg1"; Path := {["services" := "svc1"]} |}
            (Some (stored (no_service 200))) (stored (no_service 200)) _ _ _ _);
    vm_compute; reflexivity.
Defined.

(** The stored service has no location, kind or properties: Read leaves
    the fields taken from them. *)
Lemma read_leaves_fields_of_absent_parts_witness :
  schema.Get
    (data (resourceArmHealthcareServiceRead one_service_client parse_service_id
             same_location flatten_no_tags flatten_object_ids accept_all
             (start config_created (Some (stored (no_service 200))))).2) "location"
  = VString "westus2" ∧
  schema.Get
    (data (resourceArmHealthcareServiceRead one_service_client parse_service_id
             same_location flatten_no_tags flatten_object_ids accept_all
             (start config_created (Some (stored (no_service 200))))).2) "kind"
  = VString "fhir".
Proof.
  pose proof (read_leaves_fields_of_absent_parts one_service_client parse_service_id
                same_location flatten_no_tags flatten_object_ids accept_all
                (start config_created (Some (stored (no_service 200))))
                {| ResourceGroup := "rg1"; Path := {["services" := "svc1"]} |}
                (Some (stored (no_service 200))) (stored (no_service 200))
                eq_refl eq_refl) as (Hl & Hk & _).
  split; [exact (Hl eq_refl)|exact (Hk eq_refl)].
Defined.

(** With a field writer that accepts everything, Read returns nil. *)
Lemma read_fails_only_on_block_lists_witness :
  (resourceArmHealthcareServiceRead one_service_client parse_service_id
     same_location flatten_no_tags flatten_object_ids accept_all
     (start config_created (Some (stored (no_service 200))))).1
  = Return None.
Proof.
  refine (proj1 (read_fails_only_on_block_lists one_service_client parse_service_id
                   same_location flatten_no_tags flatten_object_ids accept_all
                   (start config_created (Some (stored (no_service 200))))
                   {| ResourceGroup := "rg1"; Path := {["services" := "svc1"]} |}
                   (Some (stored (no_service 200))) (stored (no_service 200)) _ _));
    vm_compute; reflexivity.
Defined.

(** With a parser that finds no [services] segment, the calls carry the
    empty name. *)
Lemma missing_services_segment_gives_empty_name_witness :
  (∃ resp gerr rest,
      trace (resourceArmHealthcareServiceRead one_service_client parse_group_only
               same_location flatten_no_tags flatten_object_ids accept_all
               (start config_created None)).2
      = [] ++ EvGet "rg1" "" resp gerr :: rest) ∧
  (∃ future derr rest,
      trace (resourceArmHealthcareServiceDelete one_service_client parse_group_only
               (start config_created None)).2
      = [] ++ EvDelete "rg1" "" future derr :: rest).
Proof.
  exact (missing_services_segment_gives_empty_name one_service_client parse_group_only
           same_location flatten_no_tags flatten_object_ids accept_all
           (start config_created None) {| ResourceGroup := "rg1"; Path := ∅ |}
           eq_refl eq_refl).
Defined.

(** Create through a transport on which the preliminary Get fails. *)
Lemma create_stops_when_existence_check_fails_witness :
  resourceArmHealthcareServiceCreateUpdate failing_client parse_service_id true
    same_location expand_no_tags flatten_no_tags flatten_object_ids accept_all
    (start config_minimal tt)
  = (Return (Some (Errorf
       "Error checking for presence of existing Healthcare Service %q (Resource Group %q): %s"
       [ArgString "svc1"; ArgString "rg1"; ArgError (RemoteError "StatusCode=500")])),
     {| data := config_minimal; remote := tt;
        trace := [EvGet "rg1" "svc1" (no_service 500)
                    (Some (RemoteError "StatusCode=500"))] |}).
Proof.
  refine (create_stops_when_existence_check_fails failing_client parse_service_id true
            same_location expand_no_tags flatten_no_tags flatten_object_ids accept_all
            (start config_minimal tt) "svc1" "rg1" tt (no_service 500)
            (RemoteError "StatusCode=500") _ _ _ _ _);
    vm_compute; reflexivity.
Defined.

(** Create of [config_minimal] when the service is not there: the Get
    reports not-found and the submit follows. *)
Lemma create_submits_after_check_witness :
  ∃ future err rest,
    trace (resourceArmHealthcareServiceCreateUpdate one_service_client parse_service_id
             true same_location expand_no_tags flatten_no_tags flatten_object_ids
             accept_all (start config_minimal None)).2
    = [] ++ EvGet "rg1" "svc1" (no_service 404) (Some (RemoteError "StatusCode=404"))
         :: EvCreateOrUpdate "rg1" "svc1"
              {| Response := None;
                 ID := None;
                 Location := Some "westus2";
                 Tags := ∅;
                 Kind := "fhir";
                 Properties := Some
                   {| AccessPolicies := Some (Slice
                        [ {| ObjectID := Some "11111111-1111-1111-1111-111111111111" |} ]);
                      CosmosDbConfiguration := Some {| OfferThroughput := Some (int32 1000) |};
                      CorsConfiguration := Some ServiceCorsConfigurationInfo_zero;
                      AuthenticationConfiguration :=
                        Some ServiceAuthenticationConfigurationInfo_zero |} |}
              future err
         :: rest.
Proof.
  refine (proj2 (create_submits_after_check one_service_client parse_service_id true
                   same_location expand_no_tags flatten_no_tags flatten_object_ids
                   accept_all (start config_minimal None)
                   "svc1" "rg1" "westus2" "fhir" ∅ 1000
                   (Some (Slice
                      [ {| ObjectID := Some "11111111-1111-1111-1111-111111111111" |} ]))
                   (Some ServiceCorsConfigurationInfo_zero)
                   (Some ServiceAuthenticationConfigurationInfo_zero)
                   _ _ _ _ _ _ _ _ _) _
                None (no_service 404) (Some (RemoteError "StatusCode=404")) _ _ _);
    first [ by right | by left | vm_compute; reflexivity ].
Defined.
